(** * The producer of async-component: request-to-stream ingestion

    A shallow embedding of [cmd/producer/main.go] and of the parts of the Go
    libraries its behaviour rests on ([unicode/utf8], [encoding/json],
    [net/http], [io], [strconv], [go-redis]), followed by the properties of
    the ingestion path.

    Go strings and byte slices are sequences of bytes: both are modelled by
    [string], whose characters are the 256 byte values. *)

From Stdlib Require Import NArith ZArith Ascii String List Lia Bool.
From stdpp Require Import base option list gmap strings sorting.

Local Open Scope N_scope.

(** ** Byte strings *)

Module Bytes.

Definition byte (c : ascii) : N := N_of_ascii c.

Fixpoint take (n : nat) (s : string) : string :=
  match n, s with
  | S n', String c t => String c (take n' t)
  | _, _ => EmptyString
  end.

Fixpoint drop (n : nat) (s : string) : string :=
  match n, s with
  | S n', String _ t => drop n' t
  | _, _ => s
  end.

Abbreviation len := String.length.

(** [s[0]] with a default for the empty string. *)
Definition nth_byte (i : nat) (s : string) : ascii :=
  match String.get i s with Some c => c | None => Ascii.zero end.

Definition all (p : ascii -> bool) (s : string) : bool :=
  forallb p (list_ascii_of_string s).

(** The double quote and the backslash, named so that no literal has to
    escape them. *)
Definition dq : ascii := ascii_of_N 0x22.
Definition bs : ascii := ascii_of_N 0x5C.
Definition lf : ascii := ascii_of_N 0x0A.
Definition str (c : ascii) : string := String c EmptyString.

(** [sub] occurs in [s]. *)
Definition contains (s sub : string) : Prop :=
  exists pre post, s = pre +:+ sub +:+ post.

End Bytes.
Import Bytes.

(** ** unicode/utf8 *)

Module utf8.

Definition RuneError : N := 0xFFFD.
Definition RuneSelf : N := 0x80.
Definition MaxRune : N := 0x10FFFF.
Definition UTFMax : nat := 4.
Definition surrogateMin : N := 0xD800.
Definition surrogateMax : N := 0xDFFF.

Definition t1 : N := 0x00.
Definition tx : N := 0x80.
Definition t2 : N := 0xC0.
Definition t3 : N := 0xE0.
Definition t4 : N := 0xF0.
Definition maskx : N := 0x3F.
Definition mask2 : N := 0x1F.
Definition mask3 : N := 0x0F.
Definition mask4 : N := 0x07.
Definition rune1Max : N := 0x7F.
Definition rune2Max : N := 0x7FF.
Definition rune3Max : N := 0xFFFF.
Definition locb : N := 0x80.
Definition hicb : N := 0xBF.

(** The entries of the [first] table: the size of the encoding in the low
    bits, the index into [acceptRanges] in the high ones. *)
Definition xx : N := 0xF1.
Definition as_ : N := 0xF0.
Definition s1 : N := 0x02.
Definition s2 : N := 0x13.
Definition s3 : N := 0x03.
Definition s4 : N := 0x23.
Definition s5 : N := 0x34.
Definition s6 : N := 0x04.
Definition s7 : N := 0x44.

Definition first (b : N) : N :=
  if b <? 0x80 then as_
  else if b <? 0xC2 then xx
  else if b <? 0xE0 then s1
  else if b =? 0xE0 then s2
  else if b <? 0xED then s3
  else if b =? 0xED then s4
  else if b <? 0xF0 then s3
  else if b =? 0xF0 then s5
  else if b <? 0xF4 then s6
  else if b =? 0xF4 then s7
  else xx.

Definition acceptRanges (i : N) : N * N :=
  match i with
  | 0 => (locb, hicb)
  | 1 => (0xA0, hicb)
  | 2 => (locb, 0x9F)
  | 3 => (0x90, hicb)
  | 4 => (locb, 0x8F)
  | _ => (0, 0)
  end.

(** [utf8.DecodeRuneInString]: the rune at the head of [s] and the number
    of bytes it takes; [(RuneError, 1)] on an invalid encoding. *)
Definition DecodeRuneInString (s : string) : N * nat :=
  match s with
  | EmptyString => (RuneError, 0%nat)
  | String c0 r0 =>
      let b0 := byte c0 in
      let x := first b0 in
      if as_ <=? x then
        (* mask := rune(x) << 31 >> 31: all ones exactly when bit 0 of x is set *)
        (if N.testbit x 0 then RuneError else b0, 1%nat)
      else
        let sz := N.to_nat (N.land x 7) in
        let accept := acceptRanges (N.shiftr x 4) in
        if (len s <? sz)%nat then (RuneError, 1%nat)
        else
          let b1 := byte (nth_byte 1 s) in
          if (b1 <? fst accept) || (snd accept <? b1) then (RuneError, 1%nat)
          else if (sz <=? 2)%nat then
            (N.lor (N.shiftl (N.land b0 mask2) 6) (N.land b1 maskx), 2%nat)
          else
            let b2 := byte (nth_byte 2 s) in
            if (b2 <? locb) || (hicb <? b2) then (RuneError, 1%nat)
            else if (sz <=? 3)%nat then
              (N.lor (N.lor (N.shiftl (N.land b0 mask3) 12)
                            (N.shiftl (N.land b1 maskx) 6))
                     (N.land b2 maskx), 3%nat)
            else
              let b3 := byte (nth_byte 3 s) in
              if (b3 <? locb) || (hicb <? b3) then (RuneError, 1%nat)
              else
                (N.lor (N.lor (N.lor (N.shiftl (N.land b0 mask4) 18)
                                     (N.shiftl (N.land b1 maskx) 12))
                              (N.shiftl (N.land b2 maskx) 6))
                       (N.land b3 maskx), 4%nat)
  end.

(** [byte(x)]: the conversion keeps the low eight bits. *)
Definition to_byte (x : N) : N := N.land x 0xFF.

Definition enc3 (r : N) : string :=
  String (ascii_of_N (N.lor t3 (to_byte (N.shiftr r 12))))
    (String (ascii_of_N (N.lor tx (N.land (to_byte (N.shiftr r 6)) maskx)))
       (String (ascii_of_N (N.lor tx (N.land (to_byte r) maskx))) EmptyString)).

(** [utf8.EncodeRune] (and [AppendRune]): the bytes written for [r]. *)
Definition EncodeRune (r : N) : string :=
  if r <=? rune1Max then str (ascii_of_N (to_byte r))
  else if r <=? rune2Max then
    String (ascii_of_N (N.lor t2 (to_byte (N.shiftr r 6))))
      (String (ascii_of_N (N.lor tx (N.land (to_byte r) maskx))) EmptyString)
  else if (MaxRune <? r) || ((surrogateMin <=? r) && (r <=? surrogateMax)) then
    enc3 RuneError
  else if r <=? rune3Max then enc3 r
  else
    String (ascii_of_N (N.lor t4 (to_byte (N.shiftr r 18))))
      (String (ascii_of_N (N.lor tx (N.land (to_byte (N.shiftr r 12)) maskx)))
         (String (ascii_of_N (N.lor tx (N.land (to_byte (N.shiftr r 6)) maskx)))
            (String (ascii_of_N (N.lor tx (N.land (to_byte r) maskx))) EmptyString))).

(** [utf8.ValidString], as the loop that decodes one rune after the other
    and stops at the first byte that is no encoding. *)
Fixpoint valid_loop (fuel : nat) (s : string) : bool :=
  match fuel with
  | O => match s with EmptyString => true | _ => false end
  | S fuel' =>
      match s with
      | EmptyString => true
      | String c _ =>
          if byte c <? RuneSelf then valid_loop fuel' (drop 1 s)
          else
            let '(r, size) := DecodeRuneInString s in
            if (r =? RuneError) && (size =? 1)%nat then false
            else valid_loop fuel' (drop size s)
      end
  end.

Definition ValidString (s : string) : bool := valid_loop (len s) s.

End utf8.

(** The multi-byte encodings, enumerated: the devices of the check that
    encoding a decoded rune gives its bytes back. *)
Module Utf8Check.
Import utf8.

(** The bytes from [lo] to [hi]. *)
Definition range (lo hi : N) : list ascii :=
  map (fun i => ascii_of_N (lo + N.of_nat i)) (seq 0 (N.to_nat (hi + 1 - lo))).

Definition forall_range (lo hi : N) (p : ascii -> bool) : bool :=
  forallb p (range lo hi).

Definition rune2 (b0 b1 : N) : N :=
  N.lor (N.shiftl (N.land b0 mask2) 6) (N.land b1 maskx).

Definition rune3 (b0 b1 b2 : N) : N :=
  N.lor (N.lor (N.shiftl (N.land b0 mask3) 12) (N.shiftl (N.land b1 maskx) 6))
        (N.land b2 maskx).

Definition rune4 (b0 b1 b2 b3 : N) : N :=
  N.lor (N.lor (N.lor (N.shiftl (N.land b0 mask4) 18) (N.shiftl (N.land b1 maskx) 12))
               (N.shiftl (N.land b2 maskx) 6))
        (N.land b3 maskx).

(** A first byte that announces [k] bytes, and the range of its second. *)
Definition lead (k : N) (c0 : ascii) : bool :=
  (first (byte c0) <? as_) && (N.land (first (byte c0)) 7 =? k).

Definition accept_lo (c0 : ascii) : N := fst (acceptRanges (N.shiftr (first (byte c0)) 4)).
Definition accept_hi (c0 : ascii) : N := snd (acceptRanges (N.shiftr (first (byte c0)) 4)).

Definition out_of (lohi : N * N) (b : N) : bool := (b <? fst lohi) || (snd lohi <? b).

Definition same2 (c0 c1 : ascii) : bool :=
  String.eqb (EncodeRune (rune2 (byte c0) (byte c1))) (String c0 (String c1 "")).
Definition same3 (c0 c1 c2 : ascii) : bool :=
  String.eqb (EncodeRune (rune3 (byte c0) (byte c1) (byte c2)))
             (String c0 (String c1 (String c2 ""))).
Definition same4 (c0 c1 c2 c3 : ascii) : bool :=
  String.eqb (EncodeRune (rune4 (byte c0) (byte c1) (byte c2) (byte c3)))
             (String c0 (String c1 (String c2 (String c3 "")))).

Definition tail2 (c0 : ascii) : bool :=
  if lead 2 c0 then forall_range (accept_lo c0) (accept_hi c0) (same2 c0) else true.
Definition tail3b (c0 c1 : ascii) : bool := forall_range locb hicb (same3 c0 c1).
Definition tail3 (c0 : ascii) : bool :=
  if lead 3 c0 then forall_range (accept_lo c0) (accept_hi c0) (tail3b c0) else true.
Definition tail4c (c0 c1 c2 : ascii) : bool := forall_range locb hicb (same4 c0 c1 c2).
Definition tail4b (c0 c1 : ascii) : bool := forall_range locb hicb (tail4c c0 c1).
Definition tail4 (c0 : ascii) : bool :=
  if lead 4 c0 then forall_range (accept_lo c0) (accept_hi c0) (tail4b c0) else true.

End Utf8Check.

(** ** The data of the producer *)

(** [error] values.  [io.EOF] is compared by identity; every other error the
    program meets is known by its message. *)
Inductive error : Type :=
  | io_EOF
  | errors_New (msg : string).

(** [err.Error()]. *)
Definition Error (e : error) : string :=
  match e with
  | io_EOF => "EOF"
  | errors_New msg => msg
  end.

(** A nil slice and an empty one are different Go values (they are encoded
    differently), and so are a nil map and an empty one: [None] is nil. *)
Abbreviation slice A := (option (list A)).
Abbreviation header_map := (option (gmap string (slice string))).

Record envInfo := {
  StreamName : string;
  RedisAddress : string;
  RequestSizeLimit : Z;
  TlsCert : string
}.

Record requestData := {
  ID : string;
  ReqURL : string;
  ReqBody : string;
  ReqHeader : header_map;
  ReqMethod : string
}.

(** ** strconv and fmt *)

Module strconv.

Definition lowerhex : string := "0123456789abcdef".
Definition hexdigit (n : N) : ascii := nth_byte (N.to_nat n) lowerhex.

(** The bytes [Quote] copies as they are whatever the tables say: printable
    ASCII other than the double quote and the backslash.  The text of a UUID
    (hexadecimal digits and dashes) is made of such bytes. *)
Definition plain (c : ascii) : bool :=
  let b := byte c in
  (0x20 <=? b) && (b <=? 0x7E) && negb (b =? 0x22) && negb (b =? 0x5C).

Section Quote.
(** [strconv.IsPrint] above U+00FF is a table lookup; the table is a
    parameter. *)
Variable isPrintTable : N -> bool.

Definition IsPrint (r : N) : bool :=
  if r <=? 0xFF then
    if (0x20 <=? r) && (r <=? 0x7E) then true
    else if (0xA1 <=? r) && (r <=? 0xFF) then negb (r =? 0xAD)
    else false
  else isPrintTable r.

Definition hex_digits (r : N) (n : nat) : string :=
  fold_right (fun i acc => String (hexdigit (N.land (N.shiftr r (4 * N.of_nat i)) 0xF)) acc)
             EmptyString (rev (seq 0 n)).

(** [appendEscapedRune] for the double quote as delimiter, with
    [ASCIIonly] and [graphicOnly] both false. *)
Definition appendEscapedRune (r : N) : string :=
  if (r =? 0x22) || (r =? 0x5C) then String bs (str (ascii_of_N r))
  else if IsPrint r then utf8.EncodeRune r
  else if r =? 0x07 then String bs "a"
  else if r =? 0x08 then String bs "b"
  else if r =? 0x0C then String bs "f"
  else if r =? 0x0A then String bs "n"
  else if r =? 0x0D then String bs "r"
  else if r =? 0x09 then String bs "t"
  else if r =? 0x0B then String bs "v"
  else if (r <? 0x20) || (r =? 0x7F) then
    String bs (String "x" (hex_digits r 2))
  else if (utf8.MaxRune <? r) || ((utf8.surrogateMin <=? r) && (r <=? utf8.surrogateMax)) then
    String bs (String "u" (hex_digits 0xFFFD 4))
  else if r <? 0x10000 then String bs (String "u" (hex_digits r 4))
  else String bs (String "U" (hex_digits r 8)).

Fixpoint quote_loop (fuel : nat) (s : string) : string :=
  match fuel with
  | O => EmptyString
  | S fuel' =>
      match s with
      | EmptyString => EmptyString
      | String c _ =>
          let '(r, width) :=
            if utf8.RuneSelf <=? byte c then utf8.DecodeRuneInString s
            else (byte c, 1%nat) in
          if (width =? 1)%nat && (r =? utf8.RuneError) then
            String bs (String "x" (String (hexdigit (N.shiftr (byte c) 4))
              (String (hexdigit (N.land (byte c) 0xF)) EmptyString)))
            +:+ quote_loop fuel' (drop 1 s)
          else appendEscapedRune r +:+ quote_loop fuel' (drop width s)
      end
  end.

(** [strconv.Quote], which is what the verb [%q] prints for a string. *)
Definition Quote (s : string) : string :=
  String dq (quote_loop (len s) s +:+ str dq).
End Quote.

End strconv.

(** ** encoding/json, at the type [requestData] *)

Module json.
Import utf8.

Definition hex : string := "0123456789abcdef".
Definition hexdigit (n : N) : ascii := nth_byte (N.to_nat n) hex.

(** [htmlSafeSet]: the ASCII bytes copied as they are when HTML escaping is
    on (as it is for [json.Marshal]): space to DEL without the double quote,
    the backslash, and the three characters [&], [<] and [>]. *)
Definition htmlSafeSet (b : N) : bool :=
  (0x20 <=? b) && (b <? 0x80) && negb (b =? 0x22) && negb (b =? 0x5C)
  && negb (b =? 0x26) && negb (b =? 0x3C) && negb (b =? 0x3E).

(** The escape written for an ASCII byte outside [htmlSafeSet]. *)
Definition escapeByte (c : ascii) : string :=
  let b := byte c in
  if (b =? 0x5C) || (b =? 0x22) then String bs (str c)
  else if b =? 0x08 then String bs "b"
  else if b =? 0x0C then String bs "f"
  else if b =? 0x0A then String bs "n"
  else if b =? 0x0D then String bs "r"
  else if b =? 0x09 then String bs "t"
  else String bs (String "u" (String "0" (String "0"
         (String (hexdigit (N.shiftr b 4)) (str (hexdigit (N.land b 0xF))))))).

(** The loop of [appendString]: safe bytes and valid multi-byte encodings
    are copied, a byte that is no valid UTF-8 becomes the escape of U+FFFD,
    and U+2028 and U+2029 are escaped. *)
Fixpoint appendString_loop (fuel : nat) (src : string) : string :=
  match fuel with
  | O => EmptyString
  | S fuel' =>
      match src with
      | EmptyString => EmptyString
      | String c _ =>
          let b := byte c in
          if b <? RuneSelf then
            (if htmlSafeSet b then str c else escapeByte c)
            +:+ appendString_loop fuel' (drop 1 src)
          else
            let n := Nat.min (len src) UTFMax in
            let '(r, size) := DecodeRuneInString (take n src) in
            if (r =? RuneError) && (size =? 1)%nat then
              String bs "ufffd" +:+ appendString_loop fuel' (drop size src)
            else if (r =? 0x2028) || (r =? 0x2029) then
              String bs "u202" +:+ str (hexdigit (N.land r 0xF))
              +:+ appendString_loop fuel' (drop size src)
            else take size src +:+ appendString_loop fuel' (drop size src)
      end
  end.

Definition appendString (src : string) : string :=
  String dq (appendString_loop (len src) src +:+ str dq).

(** A [[]string]: [null] for the nil slice. *)
Definition encodeSlice (v : slice string) : string :=
  match v with
  | None => "null"
  | Some l => "[" +:+ String.concat "," (appendString <$> l) +:+ "]"
  end.

(** The entries of a map are written in the order of [strings.Compare] on
    their keys. *)
Definition key_le (a b : string * slice string) : Prop := String.le a.1 b.1.
#[global] Instance key_le_dec : RelDecision key_le.
Proof. intros a b. unfold key_le. apply _. Defined.

Definition sortedEntries (m : gmap string (slice string)) : list (string * slice string) :=
  merge_sort key_le (map_to_list m).

Definition encodeEntry (kv : string * slice string) : string :=
  appendString kv.1 +:+ ":" +:+ encodeSlice kv.2.

Definition encodeMap (h : header_map) : string :=
  match h with
  | None => "null"
  | Some m => "{" +:+ String.concat "," (encodeEntry <$> sortedEntries m) +:+ "}"
  end.

Definition fieldName (name : string) : string := String dq (name +:+ String dq ":").

Definition encodeStruct (v : requestData) : string :=
  "{" +:+ fieldName "id" +:+ appendString (ID v)
  +:+ "," +:+ fieldName "url" +:+ appendString (ReqURL v)
  +:+ "," +:+ fieldName "body" +:+ appendString (ReqBody v)
  +:+ "," +:+ fieldName "header" +:+ encodeMap (ReqHeader v)
  +:+ "," +:+ fieldName "method" +:+ appendString (ReqMethod v)
  +:+ "}".

(** [json.Marshal] of a [requestData]: the fields in the order of their
    declaration, under the names of their tags.  No value of this type is
    unsupported, so the error is always nil. *)
Definition Marshal (v : requestData) : string * option error :=
  (encodeStruct v, None).

(** An envelope whose texts are all well-formed UTF-8: the identifier, the
    url, the body, the method, and the names and values of the headers. *)
Definition validSlice (v : slice string) : bool :=
  match v with
  | None => true
  | Some l => forallb ValidString l
  end.

Definition validEntry (kv : string * slice string) : bool :=
  ValidString kv.1 && validSlice kv.2.

Definition validHeader (h : header_map) : bool :=
  match h with
  | None => true
  | Some m => forallb validEntry (map_to_list m)
  end.

Definition validEnvelope (v : requestData) : bool :=
  ValidString (ID v) && ValidString (ReqURL v) && ValidString (ReqBody v)
  && validHeader (ReqHeader v) && ValidString (ReqMethod v).

(** *** Decoding *)

Definition parser (A : Type) : Type := string -> option (A * string).

Definition expect (c : ascii) : parser unit := fun s =>
  match s with
  | String c' t => if Ascii.eqb c c' then Some (tt, t) else None
  | EmptyString => None
  end.

Definition literal (t : string) : parser unit := fun s =>
  if String.prefix t s then Some (tt, drop (len t) s) else None.

Definition unhex (c : ascii) : option N :=
  let b := byte c in
  if (0x30 <=? b) && (b <=? 0x39) then Some (b - 0x30)
  else if (0x61 <=? b) && (b <=? 0x66) then Some (b - 0x61 + 10)
  else if (0x41 <=? b) && (b <=? 0x46) then Some (b - 0x41 + 10)
  else None.

(** [getu4]: the code unit of an escape [\uXXXX] at the head of [s]. *)
Definition getu4 (s : string) : option N :=
  match s with
  | String c0 (String c1 (String h1 (String h2 (String h3 (String h4 _))))) =>
      if Ascii.eqb c0 bs && Ascii.eqb c1 "u" then
        d1 ← unhex h1; d2 ← unhex h2; d3 ← unhex h3; d4 ← unhex h4;
        Some (((d1 * 16 + d2) * 16 + d3) * 16 + d4)
      else None
  | _ => None
  end.

Definition surr1 : N := 0xD800.
Definition surr2 : N := 0xDC00.
Definition surr3 : N := 0xE000.
Definition surrSelf : N := 0x10000.

Definition utf16_IsSurrogate (r : N) : bool := (surr1 <=? r) && (r <? surr3).

Definition utf16_DecodeRune (r1 r2 : N) : N :=
  if (surr1 <=? r1) && (r1 <? surr2) && (surr2 <=? r2) && (r2 <? surr3) then
    N.lor (N.shiftl (r1 - surr1) 10) (r2 - surr2) + surrSelf
  else RuneError.

(** The body of a string literal up to its closing quote ([unquote]):
    escapes are resolved and every other byte sequence is decoded and
    encoded again, so that the result is well-formed UTF-8. *)
Fixpoint unquote_loop (fuel : nat) (s : string) : option (string * string) :=
  match fuel with
  | O => None
  | S fuel' =>
      match s with
      | EmptyString => None
      | String c t =>
          let b := byte c in
          if Ascii.eqb c dq then Some (EmptyString, t)
          else if Ascii.eqb c bs then
            match t with
            | EmptyString => None
            | String e t' =>
                let simple (x : ascii) :=
                  '(v, rest) ← unquote_loop fuel' t'; Some (String x v, rest) in
                if Ascii.eqb e dq || Ascii.eqb e bs || Ascii.eqb e "/" || Ascii.eqb e "'"
                then simple e
                else if Ascii.eqb e "b" then simple (ascii_of_N 0x08)
                else if Ascii.eqb e "f" then simple (ascii_of_N 0x0C)
                else if Ascii.eqb e "n" then simple (ascii_of_N 0x0A)
                else if Ascii.eqb e "r" then simple (ascii_of_N 0x0D)
                else if Ascii.eqb e "t" then simple (ascii_of_N 0x09)
                else if Ascii.eqb e "u" then
                  rr ← getu4 s;
                  let after := drop 6 s in
                  if utf16_IsSurrogate rr then
                    match getu4 after with
                    | Some rr1 =>
                        let dec := utf16_DecodeRune rr rr1 in
                        if dec =? RuneError then
                          '(v, rest) ← unquote_loop fuel' after;
                          Some (EncodeRune RuneError +:+ v, rest)
                        else
                          '(v, rest) ← unquote_loop fuel' (drop 6 after);
                          Some (EncodeRune dec +:+ v, rest)
                    | None =>
                        '(v, rest) ← unquote_loop fuel' after;
                        Some (EncodeRune RuneError +:+ v, rest)
                    end
                  else
                    '(v, rest) ← unquote_loop fuel' after;
                    Some (EncodeRune rr +:+ v, rest)
                else None
            end
          else if b <? 0x20 then None
          else if b <? RuneSelf then
            '(v, rest) ← unquote_loop fuel' t; Some (String c v, rest)
          else
            let '(rr, size) := DecodeRuneInString s in
            '(v, rest) ← unquote_loop fuel' (drop size s);
            Some (EncodeRune rr +:+ v, rest)
      end
  end.

Definition parseString (fuel : nat) : parser string := fun s =>
  '(_, s) ← expect dq s; unquote_loop fuel s.

(** A string value: the literal [null] leaves the zero value. *)
Definition parseStringValue (fuel : nat) : parser string := fun s =>
  match literal "null" s with
  | Some (_, rest) => Some (EmptyString, rest)
  | None => parseString fuel s
  end.

Fixpoint parseElements (fuel : nat) (s : string) : option (list string * string) :=
  match fuel with
  | O => None
  | S fuel' =>
      '(v, rest) ← parseStringValue fuel' s;
      match rest with
      | String "," rest' =>
          '(vs, rest'') ← parseElements fuel' rest'; Some (v :: vs, rest'')
      | String "]" rest' => Some ([v], rest')
      | _ => None
      end
  end.

Definition parseSlice (fuel : nat) : parser (slice string) := fun s =>
  match literal "null" s with
  | Some (_, rest) => Some (None, rest)
  | None =>
      '(_, s) ← expect "[" s;
      match s with
      | String "]" rest => Some (Some [], rest)
      | _ => '(vs, rest) ← parseElements fuel s; Some (Some vs, rest)
      end
  end.

Fixpoint parseEntries (fuel : nat) (m : gmap string (slice string)) (s : string)
  : option (gmap string (slice string) * string) :=
  match fuel with
  | O => None
  | S fuel' =>
      '(k, s) ← parseString fuel' s;
      '(_, s) ← expect ":" s;
      '(v, s) ← parseSlice fuel' s;
      match s with
      | String "," rest => parseEntries fuel' (<[k:=v]> m) rest
      | String "}" rest => Some (<[k:=v]> m, rest)
      | _ => None
      end
  end.

Definition parseMap (fuel : nat) : parser header_map := fun s =>
  match literal "null" s with
  | Some (_, rest) => Some (None, rest)
  | None =>
      '(_, s) ← expect "{" s;
      match s with
      | String "}" rest => Some (Some ∅, rest)
      | _ => '(m, rest) ← parseEntries fuel ∅ s; Some (Some m, rest)
      end
  end.

Definition zero : requestData :=
  {| ID := ""; ReqURL := ""; ReqBody := ""; ReqHeader := None; ReqMethod := "" |}.

(** One member of the object: its value is stored in the field whose tag is
    the member's name. *)
Definition parseMember (fuel : nat) (v : requestData) : parser requestData := fun s =>
  '(k, s) ← parseString fuel s;
  '(_, s) ← expect ":" s;
  if String.eqb k "id" then
    '(x, s) ← parseStringValue fuel s;
    Some ({| ID := x; ReqURL := ReqURL v; ReqBody := ReqBody v;
             ReqHeader := ReqHeader v; ReqMethod := ReqMethod v |}, s)
  else if String.eqb k "url" then
    '(x, s) ← parseStringValue fuel s;
    Some ({| ID := ID v; ReqURL := x; ReqBody := ReqBody v;
             ReqHeader := ReqHeader v; ReqMethod := ReqMethod v |}, s)
  else if String.eqb k "body" then
    '(x, s) ← parseStringValue fuel s;
    Some ({| ID := ID v; ReqURL := ReqURL v; ReqBody := x;
             ReqHeader := ReqHeader v; ReqMethod := ReqMethod v |}, s)
  else if String.eqb k "header" then
    '(x, s) ← parseMap fuel s;
    Some ({| ID := ID v; ReqURL := ReqURL v; ReqBody := ReqBody v;
             ReqHeader := x; ReqMethod := ReqMethod v |}, s)
  else if String.eqb k "method" then
    '(x, s) ← parseStringValue fuel s;
    Some ({| ID := ID v; ReqURL := ReqURL v; ReqBody := ReqBody v;
             ReqHeader := ReqHeader v; ReqMethod := x |}, s)
  else None.

Fixpoint parseMembers (fuel : nat) (v : requestData) (s : string)
  : option (requestData * string) :=
  match fuel with
  | O => None
  | S fuel' =>
      '(v, s) ← parseMember fuel' v s;
      match s with
      | String "," rest => parseMembers fuel' v rest
      | String "}" rest => Some (v, rest)
      | _ => None
      end
  end.

Definition parseStruct (fuel : nat) : parser requestData := fun s =>
  '(_, s) ← expect "{" s;
  match s with
  | String "}" rest => Some (zero, rest)
  | _ => parseMembers fuel zero s
  end.

(** Modelled from the spec: the deserializer.  The consuming side of the
    stream is not part of the sources; this is the decoder of the compact
    form above into a [requestData]: members in any order, each stored in
    the field tagged with its name, string literals unquoted as
    [encoding/json] does, nothing after the closing brace. *)
Definition Unmarshal (data : string) : option requestData :=
  match parseStruct (len data) data with
  | Some (v, EmptyString) => Some v
  | _ => None
  end.

(** What [appendString] writes for a multi-byte encoding that decodes to
    [r]. *)
Definition written_for (r : N) (bytes : string) : string :=
  if (r =? 0x2028) || (r =? 0x2029) then String bs "u202" +:+ str (hexdigit (N.land r 0xF))
  else bytes.

(** The texts that open with a double quote: string literals and what
    starts with one. *)
Definition quoted (s : string) : Prop := exists Z, s = String dq Z.

(** What [parseEntries] does with an entry it has read. *)
Definition store (m : gmap string (slice string)) (kv : string * slice string)
  : gmap string (slice string) := <[kv.1 := kv.2]> m.

End json.

(** ** net/http and io *)

Module http.

Definition StatusOK : Z := 200.
Definition StatusAccepted : Z := 202.
Definition StatusInternalServerError : Z := 500.

(** *** Header keys *)

Definition isLower (b : N) : bool := (0x61 <=? b) && (b <=? 0x7A).
Definition isUpper (b : N) : bool := (0x41 <=? b) && (b <=? 0x5A).
Definition isDigit (b : N) : bool := (0x30 <=? b) && (b <=? 0x39).

(** The token characters of a header field name. *)
Definition validHeaderFieldByte (c : ascii) : bool :=
  let b := byte c in
  isLower b || isUpper b || isDigit b
  || existsb (N.eqb b)
       [0x21; 0x23; 0x24; 0x25; 0x26; 0x27; 0x2A; 0x2B; 0x2D; 0x2E; 0x5E; 0x5F; 0x60; 0x7C; 0x7E].

Definition toLower : N := 0x20.

(** Upper case for the first letter and for the one after each dash, lower
    case for the others. *)
Fixpoint canonicalCase (upper : bool) (a : string) : string :=
  match a with
  | EmptyString => EmptyString
  | String c t =>
      let b := byte c in
      let c' := if upper && isLower b then ascii_of_N (b - toLower)
                else if negb upper && isUpper b then ascii_of_N (b + toLower)
                else c in
      String c' (canonicalCase (Ascii.eqb c' "-") t)
  end.

(** [textproto.CanonicalMIMEHeaderKey]: a key with a byte that is no token
    character is returned unchanged. *)
Definition CanonicalMIMEHeaderKey (s : string) : string :=
  if all validHeaderFieldByte s then canonicalCase true s else s.

(** [Header.Get]: the first value under the canonical form of [key], and
    the empty string when there is none. *)
Definition Get (h : header_map) (key : string) : string :=
  match h with
  | None => ""
  | Some m =>
      match m !! CanonicalMIMEHeaderKey key with
      | Some (Some (v :: _)) => v
      | _ => ""
      end
  end.

(** *** Request bodies *)

(** What the transport will deliver for a body: [chunks], each returned by
    one or more calls of [Read] with a nil error, then [last] (possibly
    empty), whose final bytes come together with the error [ending]:
    [io.EOF] for a complete body, anything else for a failed transport. *)
Record Body := {
  chunks : list string;
  last : string;
  ending : error
}.

Definition content (r : Body) : string :=
  fold_right String.append (last r) (chunks r).

(** [Read] into a buffer of [plen] bytes: the bytes read, the error, and
    what remains to be delivered. *)
Definition Body_Read (r : Body) (plen : nat) : string * option error * Body :=
  match chunks r with
  | c :: cs =>
      (take plen c, None,
       {| chunks := if (len c <=? plen)%nat then cs else drop plen c :: cs;
          last := last r; ending := ending r |})
  | [] =>
      if (len (last r) <=? plen)%nat then
        (last r, Some (ending r),
         {| chunks := []; last := ""; ending := ending r |})
      else
        (take plen (last r), None,
         {| chunks := []; last := drop plen (last r); ending := ending r |})
  end.

(** [http.maxBytesReader]: [ln] bytes remain before the limit, [lerr] is the
    sticky error. *)
Record maxBytesReader := {
  lr : Body;
  ln : Z;
  lerr : option error
}.

(** [http.MaxBytesReader]; a negative limit counts as zero. *)
Definition MaxBytesReader (r : Body) (n : Z) : maxBytesReader :=
  {| lr := r; ln := if (n <? 0)%Z then 0%Z else n; lerr := None |}.

Definition errTooLarge : error := errors_New "http: request body too large".

(** [maxBytesReader.Read].  One byte more than the remaining limit is asked
    of the body, which tells a body that ends at the limit from one that
    goes past it.  (The server is also told to close the connection after
    the reply; that touches neither the status nor the body of the
    response.) *)
Definition Read (l : maxBytesReader) (plen : nat) : string * option error * maxBytesReader :=
  match lerr l with
  | Some e => ("", Some e, l)
  | None =>
      if (plen =? 0)%nat then ("", None, l)
      else
        let plen := if (ln l <? Z.of_nat plen - 1)%Z then Z.to_nat (ln l + 1) else plen in
        let '(data, e, r') := Body_Read (lr l) plen in
        if (Z.of_nat (len data) <=? ln l)%Z then
          (data, e, {| lr := r'; ln := (ln l - Z.of_nat (len data))%Z; lerr := e |})
        else
          (take (Z.to_nat (ln l)) data, Some errTooLarge,
           {| lr := r'; ln := 0%Z; lerr := Some errTooLarge |})
  end.

Section ReadAll.
(** [io.ReadAll] reads into the spare capacity of a buffer that grows as
    [append] decides; [room n] is that capacity, less one, when the
    buffer holds [n] bytes. *)
Variable room : nat -> nat.

Fixpoint ReadAll_loop (fuel : nat) (l : maxBytesReader) (b : string)
  : option (string * option error) :=
  match fuel with
  | O => None
  | S fuel' =>
      let '(data, e, l') := Read l (S (room (len b))) in
      let b := b +:+ data in
      match e with
      | Some io_EOF => Some (b, None)
      | Some e => Some (b, Some e)
      | None => ReadAll_loop fuel' l' b
      end
  end.

(** A bound on the number of reads a body can take. *)
Definition reads (r : Body) : nat :=
  S (fold_right (fun c acc => S (len c) + acc)%nat (len (last r)) (chunks r)).

(** [ioutil.ReadAll] on the limited body; [None] would be a loop that
    never ends. *)
Definition ReadAll (l : maxBytesReader) : option (string * option error) :=
  ReadAll_loop (reads (lr l)) l "".
End ReadAll.

(** What reading a body under a limit of [n] bytes must come to, in the
    words of the specification: a body within the limit is read whole, with
    the error of the transport if it failed; a longer one is cut at the limit
    and refused. *)
Definition limited_read_spec (n : Z) (r : Body) : string * option error :=
  if (Z.of_nat (len (content r)) <=? n)%Z then
    (content r, match ending r with io_EOF => None | e => Some e end)
  else (take (Z.to_nat n) (content r), Some errTooLarge).

Record Request := {
  Method : string;
  (** [r.URL.String()]: the request target as [net/url] prints it, path and
      query for the usual origin form. *)
  URL : string;
  Header : header_map;
  ReqBodyReader : Body
}.

(** The state of an [http.ResponseWriter], and the codes that
    [WriteHeader] has been called with so far, in the order of the calls
    (the server reports every call after the first as superfluous). *)
Record ResponseWriter := {
  wroteHeader : bool;
  status : Z;
  written : string;
  headerCalls : list Z
}.

Definition newResponse : ResponseWriter :=
  {| wroteHeader := false; status := StatusOK; written := ""; headerCalls := [] |}.

(** [WriteHeader]: the first call sets the status, a later one is ignored. *)
Definition WriteHeader (code : Z) (w : ResponseWriter) : ResponseWriter :=
  if wroteHeader w then
    {| wroteHeader := true; status := status w; written := written w;
       headerCalls := headerCalls w ++ [code] |}
  else
    {| wroteHeader := true; status := code; written := written w;
       headerCalls := headerCalls w ++ [code] |}.

End http.

(** ** go-redis *)

Module redis.

Section Options.
(** A certificate pool is a list of certificates of some type. *)
Context {Cert : Type}.

Record tls_Config := {
  RootCAs : option (list Cert);
  ServerName : string
}.

Record Options := {
  Network : string;
  Addr : string;
  Username : string;
  Password : string;
  DB : Z;
  TLSConfig : option tls_Config
}.

Record XAddArgs := {
  Stream : string;
  Values : gmap string string
}.

(** A client: the options it was made from and, for every append it may
    be asked for, the error of the command ([None] for nil).  The second
    is the behaviour of the broker and of the network behind it. *)
Record Client := {
  opt : Options;
  XAdd_Err : XAddArgs -> option error
}.

(** The channel is secured exactly when a TLS configuration is set. *)
Definition secured (c : Client) : bool :=
  match TLSConfig (opt c) with Some _ => true | None => false end.

(** *** The head of [url.Parse]: up to the scheme *)

Fixpoint cutFragment (s : string) : string :=
  match s with
  | EmptyString => EmptyString
  | String c t => if Ascii.eqb c "#" then EmptyString else String c (cutFragment t)
  end.

Definition stringContainsCTLByte (s : string) : bool :=
  negb (all (fun c => negb ((byte c <? 0x20) || (byte c =? 0x7F))) s).

Fixpoint getScheme_loop (i : nat) (rawURL rest : string) : string * option error :=
  match rest with
  | EmptyString => ("", None)
  | String c t =>
      let b := byte c in
      if http.isLower b || http.isUpper b then getScheme_loop (S i) rawURL t
      else if http.isDigit b || (b =? 0x2B) || (b =? 0x2D) || (b =? 0x2E) then
        if (i =? 0)%nat then ("", None) else getScheme_loop (S i) rawURL t
      else if b =? 0x3A then
        if (i =? 0)%nat then ("", Some (errors_New "missing protocol scheme"))
        else (take i rawURL, None)
      else ("", None)
  end.

Definition getScheme (rawURL : string) : string * option error :=
  getScheme_loop 0 rawURL rawURL.

Fixpoint ToLower (s : string) : string :=
  match s with
  | EmptyString => EmptyString
  | String c t =>
      String (if http.isUpper (byte c) then ascii_of_N (byte c + 0x20) else c) (ToLower t)
  end.

(** What [ParseURL] does with an address whose scheme it accepts: the
    rest of [url.Parse] and the set-up of the connection options, either
    of which may fail. *)
Variable setupConn : string -> Options + error.

(** [redis.ParseURL]: the address must be a URL of scheme [redis],
    [rediss] or [unix].  (The messages of the errors of [url.Parse] are
    given without the prefix that names the operation and the URL.) *)
Definition ParseURL (redisURL : string) : Options + error :=
  let u := cutFragment redisURL in
  if stringContainsCTLByte u then
    inr (errors_New "net/url: invalid control character in URL")
  else
    match getScheme u with
    | (_, Some err) => inr err
    | (scheme, None) =>
        let scheme := ToLower scheme in
        if String.eqb scheme "redis" || String.eqb scheme "rediss"
           || String.eqb scheme "unix"
        then setupConn redisURL
        else inr (errors_New ("redis: invalid URL scheme: " +:+ scheme))
    end.

(** The broker and the network: the error of an append through a client
    made from given options. *)
Variable dial : Options -> XAddArgs -> option error.

Definition NewClient (o : Options) : Client :=
  {| opt := o; XAdd_Err := dial o |}.
End Options.

Arguments tls_Config : clear implicits.
Arguments Options : clear implicits.
Arguments Client : clear implicits.

End redis.

(** ** crypto/x509 *)

Module x509.
Section CertPool.
Context {Cert : Type}.

(** The certificates that decoding the PEM blocks of a text and parsing
    them yields. *)
Variable pemCertificates : string -> list Cert.

Definition NewCertPool : list Cert := [].

(** [CertPool.AppendCertsFromPEM]: the loop runs while bytes remain, adds
    every certificate it can parse and reports whether there was one. *)
Definition AppendCertsFromPEM (s : list Cert) (pemCerts : string) : list Cert * bool :=
  match pemCerts with
  | EmptyString => (s, false)
  | _ =>
      let found := pemCertificates pemCerts in
      (s ++ found, match found with [] => false | _ => true end)
  end.
End CertPool.
End x509.

(** ** cmd/producer/main.go *)

Module producer.
Import http redis.

(** *** Effects *)

(** [fmt.Sprintln]: the operands separated by spaces, then a newline; the
    text [log.Println] writes after its prefix. *)
Definition Sprintln (operands : list string) : string :=
  String.concat " " operands +:+ str lf.

(** What a handler acts on: the response writer, the log, and the appends
    the broker client has been asked for. *)
Record World := {
  w : ResponseWriter;
  logged : list string;
  appended : list XAddArgs
}.

Definition start : World :=
  {| w := newResponse; logged := []; appended := [] |}.

(** A computation on the world; [None] is one that does not return. *)
Definition M (A : Type) : Type := World -> option (A * World).

#[global] Instance M_ret : MRet M := fun A a s => Some (a, s).
#[global] Instance M_bind : MBind M := fun A B f m s =>
  match m s with
  | Some (a, s') => f a s'
  | None => None
  end.

Definition log_Println (operands : list string) : M unit := fun s =>
  Some (tt, {| w := w s; logged := logged s ++ [Sprintln operands]; appended := appended s |}).

Definition w_WriteHeader (code : Z) : M unit := fun s =>
  Some (tt, {| w := WriteHeader code (w s); logged := logged s; appended := appended s |}).

Definition returns {A : Type} (o : option A) : M A := fun s =>
  match o with
  | Some a => Some (a, s)
  | None => None
  end.

(** [client.XAdd(ctx, args)] followed by [Err()]: the broker is asked for
    the append and answers. *)
Definition XAdd {Cert : Type} (c : Client Cert) (a : XAddArgs) : M (option error) := fun s =>
  Some (XAdd_Err c a,
        {| w := w s; logged := logged s; appended := appended s ++ [a] |}).

(** *** The stream writer *)

Class redisInterface (T : Type) : Type :=
  write : T -> envInfo -> string -> string -> M (option error).

Record myRedis {Cert : Type} := {
  client : Client Cert
}.
Arguments myRedis : clear implicits.

Section Write.
Context {Cert : Type}.
Variable isPrintTable : N -> bool.

(** [fmt.Errorf] with the format of [write]: [%q] quotes the identifier,
    [%v] prints the message of the error. *)
Definition Errorf_publish (id : string) (cause : error) : error :=
  errors_New ("failed to publish " +:+ strconv.Quote isPrintTable id
              +:+ ": " +:+ Error cause).

Definition myRedis_write (mr : myRedis Cert) (s : envInfo) (reqJSON id : string)
  : M (option error) :=
  strCMD_Err ← XAdd (client mr)
                 {| Stream := StreamName s; Values := {[ "data" := reqJSON ]} |};
  match strCMD_Err with
  | Some e => mret (Some (Errorf_publish id e))
  | None => mret None
  end.

#[global] Instance myRedis_redisInterface : redisInterface (myRedis Cert) :=
  myRedis_write.
End Write.

(** *** The handler *)

Section Handler.
Variable room : nat -> nat.
Context {T : Type} `{redisInterface T}.

(** The envelope of a request whose body [b] was read and whose
    identifier is [id]. *)
Definition reqData (r : Request) (id b : string) : requestData :=
  let reqBodyString := b in
  let originalHost := Get (Header r) "Async-Original-Host" in
  {| ID := id;
     ReqBody := reqBodyString;
     ReqURL := "http://" +:+ originalHost +:+ URL r;
     ReqHeader := Header r;
     ReqMethod := Method r |}.

(** [handleRequest], for the configuration [env] and the stream writer
    [rc]; [id] is the text that [gouuidv6.NewFromTime(now()).String()]
    returns for this request. *)
Definition handleRequest (env : envInfo) (rc : T) (id : string) (r : Request) : M unit :=
  let body := MaxBytesReader (ReqBodyReader r) (RequestSizeLimit env) in
  '(b, err) ← returns (ReadAll room body);
  match err with
  | Some err =>
      if String.eqb (Error err) "http: request body too large" then
        log_Println ["HTTP Request body too large "; Error err];;
        w_WriteHeader StatusInternalServerError
      else
        log_Println ["Error writing to buffer: "; Error err];;
        w_WriteHeader StatusInternalServerError
  | None =>
      let reqData := reqData r id b in
      let '(reqJSON, err) := json.Marshal reqData in
      match err with
      | Some err =>
          w_WriteHeader StatusInternalServerError;;
          log_Println ["Failed to marshal request: "; Error err]
      | None =>
          err ← write rc env reqJSON (ID reqData);
          match err with
          | Some err =>
              w_WriteHeader StatusInternalServerError;;
              log_Println ["Error asynchronous writing request to storage "; Error err]
          | None =>
              log_Println ["request accepted"];;
              w_WriteHeader StatusAccepted
          end
      end
  end.
End Handler.

(** The entry the stream writer asks the broker to append for a request
    whose body was read whole. *)
Definition entry (env : envInfo) (r : Request) (id : string) : XAddArgs :=
  {| Stream := StreamName env;
     Values := {[ "data" :=
       (json.Marshal (reqData r id (content (ReqBodyReader r)))).1 ]} |}.

(** The body of a request is within the configured limit (a negative limit
    counts as zero). *)
Definition within_limit (env : envInfo) (r : Request) : Prop :=
  (Z.of_nat (len (content (ReqBodyReader r))) <= Z.max 0 (RequestSizeLimit env))%Z.

(** The request has no usable [Async-Original-Host]: no header map, no such
    key, no value under it, or an empty first value. *)
Definition originalHost_missing (h : header_map) : Prop :=
  match h with
  | None => True
  | Some m =>
      match m !! "Async-Original-Host" with
      | Some (Some (v :: _)) => v = ""
      | _ => True
      end
  end.

(** *** Start-up *)

(** The process while it starts: the lines logged so far, and [None] once
    [log.Fatal] has ended it. *)
Definition P (A : Type) : Type := list string -> list string * option A.

#[global] Instance P_ret : MRet P := fun A a l => (l, Some a).
#[global] Instance P_bind : MBind P := fun A B f m l =>
  match m l with
  | (l', Some a) => f a l'
  | (l', None) => (l', None)
  end.

Definition startup_Println (operands : list string) : P unit := fun l =>
  (l ++ [Sprintln operands], Some tt).

(** [log.Fatal]: the line is written and the process exits. *)
Definition log_Fatal {A : Type} (msg : string) : P A := fun l =>
  (l ++ [Sprintln [msg]], None).

Section Startup.
Context {Cert : Type}.
Variable pemCertificates : string -> list Cert.
Variable setupConn : string -> Options Cert + error.
Variable dial : Options Cert -> XAddArgs -> option error.

Definition setUpRedis (env : envInfo) : P (myRedis Cert) :=
  let roots := x509.NewCertPool in
  let '(roots, certFound) := x509.AppendCertsFromPEM pemCertificates roots (TlsCert env) in
  if certFound then
    startup_Println ["found a cert"];;
    match ParseURL setupConn (RedisAddress env) with
    | inr err => log_Fatal (Error err)
    | inl opt =>
        let opt :=
          {| Network := Network opt; Addr := Addr opt; Username := Username opt;
             Password := Password opt; DB := DB opt;
             TLSConfig := Some {| RootCAs := Some roots; ServerName := "" |} |} in
        mret {| client := NewClient dial opt |}
    end
  else
    startup_Println ["didnt find a cert"];;
    mret {| client := NewClient dial
              {| Network := ""; Addr := RedisAddress env; Username := "";
                 Password := ""; DB := 0; TLSConfig := None |} |}.

(** Whether [setUpRedis] finds a certificate in the configuration. *)
Definition certFound (env : envInfo) : bool :=
  (x509.AppendCertsFromPEM pemCertificates x509.NewCertPool (TlsCert env)).2.

(** The process that serves: [http.ListenAndServe] hands every request
    to [handleRequest] with these two globals. *)
Record server := {
  env : envInfo;
  rc : myRedis Cert
}.

(** [main]; [processed] is what [envconfig.Process] made of the
    environment. *)
Definition main (processed : envInfo * option error) : P server :=
  let '(env, err) := processed in
  match err with
  | Some err => log_Fatal (Error err)
  | None =>
      rc ← setUpRedis env;
      mret {| env := env; rc := rc |}
  end.
End Startup.

End producer.


(** ** Requests handled one after the other *)

Module server.
Import http redis producer.

(** The server hands every request to the handler with a response writer
    of its own; the log and the broker are those of the process. *)
Definition fresh (s : World) : World :=
  {| w := newResponse; logged := logged s; appended := appended s |}.

Section Serve.
Variable room : nat -> nat.
Context {T : Type} `{redisInterface T}.

(** The calls of [handleRequest] for requests that come in turn, as those
    of one connection do, each with the identifier made for it.  The
    configuration and the stream writer are the globals set at start-up,
    which the handler never assigns. *)
Fixpoint serve (env : envInfo) (rc : T) (reqs : list (string * Request)) : M unit :=
  match reqs with
  | [] => mret tt
  | (id, r) :: rest => fun s =>
      match handleRequest room env rc id r (fresh s) with
      | Some (_, s') => serve env rc rest s'
      | None => None
      end
  end.
End Serve.

(** The body of a request is read whole: it is within the limit and the
    transport ended normally. *)
Definition readWhole (env : envInfo) (r : Request) : bool :=
  (Z.of_nat (len (content (ReqBodyReader r))) <=? Z.max 0 (RequestSizeLimit env))%Z
  && match ending (ReqBodyReader r) with io_EOF => true | _ => false end.

End server.

(** ** Sample configurations and requests *)

Module Examples.
Import http redis producer.

(** The capacity [io.ReadAll] starts with is 512 bytes. *)
Definition room0 : nat -> nat := fun _ => 511%nat.
Definition noTable : N -> bool := fun _ => false.

Definition env5 : envInfo :=
  {| StreamName := "requests"; RedisAddress := "localhost:6379";
     RequestSizeLimit := 5; TlsCert := "" |}.

Definition env0 : envInfo :=
  {| StreamName := "requests"; RedisAddress := "localhost:6379";
     RequestSizeLimit := 0; TlsCert := "" |}.

Definition plainOptions : Options unit :=
  {| Network := ""; Addr := "localhost:6379"; Username := "";
     Password := ""; DB := 0; TLSConfig := None |}.

Definition broker_up : myRedis unit :=
  {| client := NewClient (fun _ _ => None) plainOptions |}.

Definition broker_down : myRedis unit :=
  {| client := NewClient (fun _ _ => Some (errors_New "dial tcp: connection refused"))
                 plainOptions |}.

Definition forwarded : header_map :=
  Some {[ "Async-Original-Host" := Some ["example.com"] ]}.

Definition post (h : header_map) (cs : list string) (l : string) : Request :=
  {| Method := "POST"; URL := "/v1/foo?x=1"; Header := h;
     ReqBodyReader := {| chunks := cs; last := l; ending := io_EOF |} |}.

Definition uuid : string := "1eb1b2c3-d4e5-6f00-8a9b-0123456789ab".

(** The envelope the handler builds for a POST whose body is [body]. *)
Definition envelope (body : string) : requestData :=
  reqData (post forwarded [] body) uuid body.

(** Two bodies of a single byte that is no UTF-8, FF and FE, and the three
    bytes that encode U+FFFD. *)
Definition byteFF : string := str (ascii_of_N 0xFF).
Definition byteFE : string := str (ascii_of_N 0xFE).
Definition replacement : string := utf8.EncodeRune utf8.RuneError.

(** An envelope with a repeated header. *)
Definition repeated : requestData :=
  {| ID := uuid; ReqURL := "http://example.com/v1/foo?x=1"; ReqBody := "hello";
     ReqHeader := Some (<[ "Accept" := Some ["text/html"; "application/json"; "text/html"] ]>
                        (<[ "Async-Original-Host" := Some ["example.com"] ]> ∅));
     ReqMethod := "POST" |}.

(** Stand-ins for the libraries at start-up: a decoder that finds one
    certificate in every text, and a set-up of the connection that takes the
    address after the scheme prefix [redis://] as it is. *)
Definition oneCertificate : string -> list unit := fun _ => [tt].
Definition hostAfterScheme : string -> Options unit + error := fun u =>
  inl {| Network := "tcp"; Addr := drop 8 u; Username := "";
         Password := ""; DB := 0; TLSConfig := None |}.
Definition quietBroker : Options unit -> XAddArgs -> option error := fun _ _ => None.

Definition envTLS (address : string) : envInfo :=
  {| StreamName := "requests"; RedisAddress := address;
     RequestSizeLimit := 5; TlsCert := "-----BEGIN CERTIFICATE-----" |}.

(** A POST whose transport fails after the bytes it delivered. *)
Definition cut (h : header_map) (cs : list string) (l : string) : Request :=
  {| Method := "POST"; URL := "/v1/foo?x=1"; Header := h;
     ReqBodyReader := {| chunks := cs; last := l;
                         ending := errors_New "unexpected EOF" |} |}.

(** Another capacity for the buffer of [io.ReadAll]: one byte at a time. *)
Definition room1 : nat -> nat := fun _ => 0%nat.

End Examples.

(** * Properties *)

(** ** Byte strings *)

Module BytesFacts.

Lemma app_cons c (a b : string) : String c a +:+ b = String c (a +:+ b).
Proof. reflexivity. Qed.

Lemma app_nil_l (s : string) : "" +:+ s = s.
Proof. reflexivity. Qed.

Lemma app_nil_r (s : string) : s +:+ "" = s.
Proof. induction s as [|c s IH]; [done|]. by rewrite app_cons, IH. Qed.

Lemma app_assoc (a b c : string) : (a +:+ b) +:+ c = a +:+ (b +:+ c).
Proof. induction a as [|x a IH]; [done|]. by rewrite !app_cons, IH. Qed.

Lemma len_app (a b : string) : len (a +:+ b) = (len a + len b)%nat.
Proof. induction a as [|x a IH]; [done|]. rewrite app_cons. cbn. by rewrite IH. Qed.

Lemma take_drop n (s : string) : take n s +:+ drop n s = s.
Proof.
  revert s. induction n as [|n IH]; intros [|c s]; try done.
  cbn. by rewrite app_cons, IH.
Qed.

Lemma len_take n (s : string) : len (take n s) = Nat.min n (len s).
Proof.
  revert s. induction n as [|n IH]; intros [|c s]; try done.
  cbn. f_equal. apply IH.
Qed.

Lemma len_drop n (s : string) : len (drop n s) = (len s - n)%nat.
Proof.
  revert s. induction n as [|n IH]; intros [|c s]; try done.
  cbn. apply IH.
Qed.

Lemma take_ge n (s : string) : (len s <= n)%nat -> take n s = s.
Proof.
  revert s. induction n as [|n IH]; intros [|c s] Hle; cbn in *; try done; try lia.
  f_equal. apply IH. lia.
Qed.

Lemma drop_ge n (s : string) : (len s <= n)%nat -> drop n s = "".
Proof.
  revert s. induction n as [|n IH]; intros [|c s] Hle; cbn in *; try done; try lia.
  apply IH. lia.
Qed.

Lemma take_app_le n (a b : string) : (n <= len a)%nat -> take n (a +:+ b) = take n a.
Proof.
  revert a. induction n as [|n IH]; intros [|c a] Hle; cbn in *; try lia.
  - by destruct b.
  - done.
  - rewrite app_cons. cbn. f_equal. apply IH. lia.
Qed.

Lemma take_app_ge n (a b : string) :
  (len a <= n)%nat -> take n (a +:+ b) = a +:+ take (n - len a) b.
Proof.
  revert n. induction a as [|c a IH]; intros n Hle; cbn in *.
  - by rewrite Nat.sub_0_r.
  - destruct n as [|n]; [lia|]. rewrite !app_cons. cbn. f_equal. apply IH. lia.
Qed.

Lemma take_take n m (s : string) : (n <= m)%nat -> take n (take m s) = take n s.
Proof.
  revert m s. induction n as [|n IH]; intros m s Hle.
  - by destruct (take m s), s.
  - destruct m as [|m]; [lia|]. destruct s as [|c s]; [done|].
    cbn. f_equal. apply IH. lia.
Qed.

Lemma drop_app_len (a b : string) : drop (len a) (a +:+ b) = b.
Proof. induction a as [|c a IH]; [by destruct b|]. apply IH. Qed.

Lemma take_app_len (a b : string) : take (len a) (a +:+ b) = a.
Proof. induction a as [|c a IH]; [by destruct b|]. rewrite app_cons. cbn. by f_equal. Qed.

Lemma take_empty n : take n "" = "".
Proof. by destruct n. Qed.

Lemma take_split k n (s : string) :
  (k <= n)%nat -> take n s = take k s +:+ take (n - k) (drop k s).
Proof.
  intros Hkn. transitivity (take n (take k s +:+ drop k s)); [by rewrite take_drop|].
  rewrite take_app_ge by (rewrite len_take; lia). f_equal.
  destruct (Nat.le_gt_cases k (len s)).
  - rewrite len_take. by replace (Nat.min k (len s)) with k by lia.
  - rewrite drop_ge by lia. by rewrite !take_empty.
Qed.

Lemma contains_app_r (s sub pre : string) : contains s sub -> contains (pre +:+ s) sub.
Proof.
  intros (p & q & ->). exists (pre +:+ p), q. by rewrite app_assoc.
Qed.

Lemma contains_app_l (s sub post : string) : contains s sub -> contains (s +:+ post) sub.
Proof.
  intros (p & q & ->). exists p, (q +:+ post). by rewrite !app_assoc.
Qed.

Lemma contains_refl (s : string) : contains s s.
Proof. exists "", "". by rewrite app_nil_r. Qed.

End BytesFacts.

(** ** Reading a body under a limit *)

Module HttpFacts.
Import http BytesFacts.

Lemma content_cons c cs l e :
  content {| chunks := c :: cs; last := l; ending := e |}
  = c +:+ content {| chunks := cs; last := l; ending := e |}.
Proof. reflexivity. Qed.

Lemma content_nil l e : content {| chunks := []; last := l; ending := e |} = l.
Proof. reflexivity. Qed.

Lemma reads_cons c cs l e :
  reads {| chunks := c :: cs; last := l; ending := e |}
  = (S (len c) + reads {| chunks := cs; last := l; ending := e |})%nat.
Proof. unfold reads. cbn. lia. Qed.

Section ReadAll.
Variable room : nat -> nat.

Lemma ReadAll_loop_spec fuel : forall r n b,
  (0 <= n)%Z -> (reads r <= fuel)%nat ->
  ReadAll_loop room fuel {| lr := r; ln := n; lerr := None |} b
  = Some (b +:+ (limited_read_spec n r).1, (limited_read_spec n r).2).
Proof.
  induction fuel as [|fuel IH]; intros [cs l e] n b Hn Hfuel.
  { unfold reads in Hfuel. lia. }
  cbn [ReadAll_loop Read lerr lr ln].
  replace (S (room (len b)) =? 0)%nat with false by (symmetry; by apply Nat.eqb_neq).
  set (k := if (n <? Z.of_nat (S (room (len b))) - 1)%Z then Z.to_nat (n + 1) else S (room (len b))).
  assert (Hk : (1 <= k)%nat /\ (Z.of_nat k <= n + 1)%Z).
  { subst k. destruct (Z.ltb_spec n (Z.of_nat (S (room (len b))) - 1)); split; lia. }
  clearbody k. destruct Hk as [Hk1 Hk2].
  destruct cs as [|c cs].
  - (* only the last bytes remain *)
    unfold Body_Read. cbn [chunks last ending].
    unfold limited_read_spec. rewrite content_nil. cbn [ending].
    destruct (Nat.leb_spec (len l) k) as [Hlk|Hlk].
    + destruct (Z.leb_spec (Z.of_nat (len l)) n) as [Hln|Hln]; cbn [fst snd].
      * by destruct e.
      * by rewrite app_nil_r || done.
    + assert (Hlt : len (take k l) = k) by (rewrite len_take; lia).
      rewrite Hlt.
      destruct (Z.leb_spec (Z.of_nat k) n) as [Hkn|Hkn].
      * rewrite IH; [|lia|unfold reads in *; cbn [chunks last fold_right] in *; rewrite len_drop; lia].
        unfold limited_read_spec. rewrite content_nil. cbn [ending].
        rewrite len_drop.
        destruct (Z.leb_spec (Z.of_nat (len l)) n), (Z.leb_spec (Z.of_nat (len l - k)) (n - Z.of_nat k));
          try lia; cbn [fst snd].
        -- by rewrite app_assoc, take_drop.
        -- f_equal. f_equal. rewrite app_assoc. f_equal.
           rewrite (take_split k (Z.to_nat n)) by lia. f_equal. f_equal. lia.
      * destruct (Z.leb_spec (Z.of_nat (len l)) n); [lia|]. cbn [fst snd].
        by rewrite take_take by lia.
  - (* a chunk *)
    unfold Body_Read. cbn [chunks last ending].
    rewrite reads_cons in Hfuel.
    destruct (Z.leb_spec (Z.of_nat (len (take k c))) n) as [Hdn|Hdn].
    + set (r' := {| chunks := if (len c <=? k)%nat then cs else drop k c :: cs;
                    last := l; ending := e |}).
      assert (Hc : content {| chunks := c :: cs; last := l; ending := e |}
                   = take k c +:+ content r').
      { subst r'. rewrite content_cons.
        destruct (Nat.leb_spec (len c) k).
        - by rewrite take_ge by lia.
        - by rewrite content_cons, <- app_assoc, take_drop. }
      assert (Hr : (reads r' <= fuel)%nat).
      { subst r'. destruct (Nat.leb_spec (len c) k); [lia|].
        rewrite reads_cons, len_drop. lia. }
      rewrite IH by (done || lia).
      unfold limited_read_spec. rewrite Hc, len_app. cbn [ending]. subst r'. cbn [ending].
      set (r' := {| chunks := _; last := l; ending := e |}).
      destruct (Z.leb_spec (Z.of_nat (len (take k c) + len (content r'))) n),
               (Z.leb_spec (Z.of_nat (len (content r'))) (n - Z.of_nat (len (take k c))));
        try lia; cbn [fst snd].
      * by rewrite app_assoc.
      * f_equal. f_equal. rewrite app_assoc. f_equal.
        rewrite take_app_ge by lia. f_equal. f_equal. lia.
    + rewrite len_take in Hdn.
      unfold limited_read_spec. rewrite content_cons, len_app.
      destruct (Z.leb_spec (Z.of_nat (len c + len (content {| chunks := cs; last := l; ending := e |}))) n);
        [lia|]. cbn [fst snd].
      f_equal. f_equal. f_equal.
      rewrite take_take by lia. by rewrite take_app_le by lia.
Qed.

(** [ioutil.ReadAll] on a body under a limit always returns, and returns what
    the specification of the limit says. *)
Lemma ReadAll_MaxBytesReader (r : Body) (n : Z) :
  ReadAll room (MaxBytesReader r n)
  = Some (limited_read_spec (if (n <? 0)%Z then 0%Z else n) r).
Proof.
  unfold ReadAll, MaxBytesReader. cbn [lr].
  rewrite ReadAll_loop_spec; [|destruct (Z.ltb_spec n 0); lia|done].
  rewrite app_nil_l. by destruct (limited_read_spec _ r).
Qed.

End ReadAll.
End HttpFacts.

(** ** Quoting *)

Module StrconvFacts.
Import strconv BytesFacts.

Lemma plain_byte tbl c :
  plain c = true ->
  (utf8.RuneSelf <=? byte c) = false /\ (byte c =? utf8.RuneError) = false
  /\ appendEscapedRune tbl (byte c) = str c.
Proof.
  destruct c as [[] [] [] [] [] [] [] []]; intros Hp;
    first [discriminate Hp | repeat split; reflexivity].
Qed.

Lemma quote_loop_plain tbl fuel : forall s,
  (len s <= fuel)%nat -> all plain s = true -> quote_loop tbl fuel s = s.
Proof.
  induction fuel as [|fuel IH]; intros [|c s] Hlen Hall; cbn in Hlen; try done; try lia.
  unfold all in Hall. cbn in Hall. apply andb_true_iff in Hall as [Hc Hall].
  destruct (plain_byte tbl c Hc) as (H1 & H2 & H3).
  cbn [quote_loop]. rewrite H1, H2, andb_false_r, H3.
  cbn [drop]. rewrite (IH s); [done|lia|done].
Qed.

(** On a plain identifier [%q] only adds the quotes. *)
Lemma Quote_plain tbl (s : string) :
  all plain s = true -> Quote tbl s = String dq (s +:+ str dq).
Proof. intros Hall. unfold Quote. by rewrite quote_loop_plain. Qed.

End StrconvFacts.

(** ** The handler *)

Module ProducerFacts.
Import http redis producer BytesFacts HttpFacts StrconvFacts.

Lemma clamp_max (n : Z) : (if (n <? 0)%Z then 0%Z else n) = Z.max 0 n.
Proof. destruct (Z.ltb_spec n 0); lia. Qed.

Section Handler.
Variable room : nat -> nat.

Section AnyWriter.
Context {T : Type} `{redisInterface T}.

(** A body over the limit: the request is refused before the stream writer
    is looked at, whatever the stream writer is. *)
Lemma handle_too_large (env : envInfo) (rc : T) (id : string) (r : Request) (s : World) :
  (Z.max 0 (RequestSizeLimit env) < Z.of_nat (len (content (ReqBodyReader r))))%Z ->
  handleRequest room env rc id r s
  = Some (tt, {| w := WriteHeader StatusInternalServerError (w s);
                 logged := logged s ++ [Sprintln ["HTTP Request body too large ";
                                                  "http: request body too large"]];
                 appended := appended s |}).
Proof.
  intros Hlarge. unfold handleRequest, mbind, M_bind, returns.
  rewrite ReadAll_MaxBytesReader, clamp_max. unfold limited_read_spec.
  destruct (Z.leb_spec (Z.of_nat (len (content (ReqBodyReader r)))) (Z.max 0 (RequestSizeLimit env)));
    [lia|].
  reflexivity.
Qed.

(** A failed transport within the limit: refused as well. *)
Lemma handle_read_error (env : envInfo) (rc : T) (id : string) (r : Request) (s : World) msg :
  within_limit env r -> ending (ReqBodyReader r) = errors_New msg ->
  exists line,
    handleRequest room env rc id r s
    = Some (tt, {| w := WriteHeader StatusInternalServerError (w s);
                   logged := logged s ++ [line];
                   appended := appended s |}).
Proof.
  intros Hin Hend. unfold handleRequest, mbind, M_bind, returns.
  rewrite ReadAll_MaxBytesReader, clamp_max. unfold limited_read_spec.
  destruct (Z.leb_spec (Z.of_nat (len (content (ReqBodyReader r)))) (Z.max 0 (RequestSizeLimit env)));
    [|unfold within_limit in Hin; lia].
  rewrite Hend. cbn [Error].
  destruct (String.eqb msg "http: request body too large"); eexists; reflexivity.
Qed.

(** A body read whole: the envelope is serialized and handed to the stream
    writer, whose answer decides the response. *)
Lemma handle_read_ok (env : envInfo) (rc : T) (id : string) (r : Request) (s : World) :
  within_limit env r -> ending (ReqBodyReader r) = io_EOF ->
  handleRequest room env rc id r s
  = match write rc env (json.Marshal (reqData r id (content (ReqBodyReader r)))).1 id s with
    | Some (Some err, s') =>
        Some (tt, {| w := WriteHeader StatusInternalServerError (w s');
                     logged := logged s' ++ [Sprintln ["Error asynchronous writing request to storage ";
                                                       Error err]];
                     appended := appended s' |})
    | Some (None, s') =>
        Some (tt, {| w := WriteHeader StatusAccepted (w s');
                     logged := logged s' ++ [Sprintln ["request accepted"]];
                     appended := appended s' |})
    | None => None
    end.
Proof.
  intros Hin Hend. unfold handleRequest, mbind, M_bind, returns.
  rewrite ReadAll_MaxBytesReader, clamp_max. unfold limited_read_spec.
  destruct (Z.leb_spec (Z.of_nat (len (content (ReqBodyReader r)))) (Z.max 0 (RequestSizeLimit env)));
    [|unfold within_limit in Hin; lia].
  rewrite Hend. cbn [json.Marshal fst snd].
  replace (ID (reqData r id (content (ReqBodyReader r)))) with id by reflexivity.
  destruct (write rc env _ id s) as [[[err|] s']|]; reflexivity.
Qed.
End AnyWriter.

Section Redis.
Context {Cert : Type}.
Variable tbl : N -> bool.

Lemma write_run (mr : myRedis Cert) (env : envInfo) (reqJSON id : string) (s : World) :
  myRedis_write tbl mr env reqJSON id s
  = Some (match XAdd_Err (client mr) {| Stream := StreamName env; Values := {[ "data" := reqJSON ]} |} with
          | Some e => Some (Errorf_publish tbl id e)
          | None => None
          end,
          {| w := w s; logged := logged s;
             appended := appended s ++ [{| Stream := StreamName env; Values := {[ "data" := reqJSON ]} |}] |}).
Proof.
  unfold myRedis_write, mbind, M_bind, XAdd.
  by destruct (XAdd_Err _ _).
Qed.

Lemma handle_accepted (env : envInfo) (rc : myRedis Cert) (id : string) (r : Request) (s : World) :
  within_limit env r -> ending (ReqBodyReader r) = io_EOF ->
  XAdd_Err (client rc) (entry env r id) = None ->
  handleRequest (H := myRedis_write tbl) room env rc id r s
  = Some (tt, {| w := WriteHeader StatusAccepted (w s);
                 logged := logged s ++ [Sprintln ["request accepted"]];
                 appended := appended s ++ [entry env r id] |}).
Proof.
  intros Hin Hend Hok. rewrite handle_read_ok by done.
  unfold write. rewrite write_run. fold (entry env r id). by rewrite Hok.
Qed.

Lemma handle_broker_error (env : envInfo) (rc : myRedis Cert) (id : string) (r : Request) (s : World) e :
  within_limit env r -> ending (ReqBodyReader r) = io_EOF ->
  XAdd_Err (client rc) (entry env r id) = Some e ->
  handleRequest (H := myRedis_write tbl) room env rc id r s
  = Some (tt, {| w := WriteHeader StatusInternalServerError (w s);
                 logged := logged s ++ [Sprintln ["Error asynchronous writing request to storage ";
                                                  Error (Errorf_publish tbl id e)]];
                 appended := appended s ++ [entry env r id] |}).
Proof.
  intros Hin Hend Hok. rewrite handle_read_ok by done.
  unfold write. rewrite write_run. fold (entry env r id). by rewrite Hok.
Qed.

End Redis.
End Handler.
End ProducerFacts.

(** ** The ingestion path *)

Import http redis producer.
Import BytesFacts HttpFacts StrconvFacts ProducerFacts.

(** C1 -- size-limit enforcement.  For a configured limit of N bytes (N not
    negative), a request whose body is exactly N bytes and ends normally is
    accepted: the handler returns, the broker has been asked for exactly one
    append, that of the serialized envelope, and the status is 202 when the
    broker accepts it.  A request whose body has more than N bytes is refused
    with status 500 and an empty response body, and the broker is not asked
    for any append. *)
Theorem size_limit_enforced (room : nat -> nat) (tbl : N -> bool) {Cert : Type}
    (env : envInfo) (rc : myRedis Cert) (id : string) (r : Request) (s : World) :
  (0 <= RequestSizeLimit env)%Z ->
  w s = newResponse ->
  (Z.of_nat (len (content (ReqBodyReader r))) = RequestSizeLimit env ->
   ending (ReqBodyReader r) = io_EOF ->
   exists s',
     handleRequest (H := myRedis_write tbl) room env rc id r s = Some (tt, s')
     /\ appended s' = appended s ++ [entry env r id]
     /\ (XAdd_Err (client rc) (entry env r id) = None ->
         status (w s') = StatusAccepted))
  /\ ((RequestSizeLimit env < Z.of_nat (len (content (ReqBodyReader r))))%Z ->
      exists s',
        handleRequest (H := myRedis_write tbl) room env rc id r s = Some (tt, s')
        /\ status (w s') = StatusInternalServerError
        /\ written (w s') = ""
        /\ appended s' = appended s).
Proof.
  intros Hn Hw. split.
  - intros Hlen Hend.
    assert (Hin : within_limit env r) by (unfold within_limit; lia).
    destruct (XAdd_Err (client rc) (entry env r id)) as [e|] eqn:Hb.
    + eexists. split; [by apply handle_broker_error|]. split; [done|]. intros; discriminate.
    + eexists. split; [by apply handle_accepted|]. split; [done|].
      intros _. cbn [w]. by rewrite Hw.
  - intros Hlarge. eexists. split; [apply handle_too_large; lia|].
    cbn [w appended]. by rewrite Hw.
Qed.

Lemma size_limit_enforced_witness :
  (exists s',
     handleRequest (H := myRedis_write Examples.noTable) Examples.room0 Examples.env5
       Examples.broker_up Examples.uuid (Examples.post Examples.forwarded ["he"; "llo"] "") start
     = Some (tt, s')
     /\ appended s' = [entry Examples.env5 (Examples.post Examples.forwarded ["he"; "llo"] "") Examples.uuid]
     /\ status (w s') = 202%Z)
  /\ (exists s',
        handleRequest (H := myRedis_write Examples.noTable) Examples.room0 Examples.env5
          Examples.broker_up Examples.uuid (Examples.post Examples.forwarded ["he"; "llo"] "!") start
        = Some (tt, s')
        /\ status (w s') = 500%Z /\ written (w s') = "" /\ appended s' = []).
Proof.
  split.
  - destruct (size_limit_enforced Examples.room0 Examples.noTable Examples.env5
                Examples.broker_up Examples.uuid
                (Examples.post Examples.forwarded ["he"; "llo"] "") start
                ltac:(vm_compute; discriminate) eq_refl) as [Hexact _].
    destruct (Hexact eq_refl eq_refl) as (s' & Hrun & Happ & Hst).
    exists s'. split; [exact Hrun|]. split; [exact Happ|]. exact (Hst eq_refl).
  - destruct (size_limit_enforced Examples.room0 Examples.noTable Examples.env5
                Examples.broker_up Examples.uuid
                (Examples.post Examples.forwarded ["he"; "llo"] "!") start
                ltac:(vm_compute; discriminate) eq_refl) as [_ Hover].
    exact (Hover eq_refl).
Defined.

(** C10 -- a limit of zero (the value left when the variable is unset).
    Every request with a non-empty body is refused with status 500 and no
    append; a request whose body is empty is accepted and appended. *)
Theorem zero_limit (room : nat -> nat) (tbl : N -> bool) {Cert : Type}
    (env : envInfo) (rc : myRedis Cert) (id : string) (r : Request) (s : World) :
  RequestSizeLimit env = 0%Z ->
  w s = newResponse ->
  (content (ReqBodyReader r) <> "" ->
   exists s',
     handleRequest (H := myRedis_write tbl) room env rc id r s = Some (tt, s')
     /\ status (w s') = StatusInternalServerError
     /\ appended s' = appended s)
  /\ (content (ReqBodyReader r) = "" ->
      ending (ReqBodyReader r) = io_EOF ->
      exists s',
        handleRequest (H := myRedis_write tbl) room env rc id r s = Some (tt, s')
        /\ appended s' = appended s ++ [entry env r id]
        /\ (XAdd_Err (client rc) (entry env r id) = None ->
            status (w s') = StatusAccepted)).
Proof.
  intros Hzero Hw. split.
  - intros Hne. eexists. split.
    + apply handle_too_large. rewrite Hzero.
      destruct (content (ReqBodyReader r)); [done|cbn; lia].
    + cbn [w appended]. by rewrite Hw.
  - intros Hempty Hend.
    assert (Hin : within_limit env r) by (unfold within_limit; rewrite Hempty, Hzero; cbn; lia).
    destruct (XAdd_Err (client rc) (entry env r id)) as [e|] eqn:Hb.
    + eexists. split; [by apply handle_broker_error|]. split; [done|]. intros; discriminate.
    + eexists. split; [by apply handle_accepted|]. split; [done|].
      intros _. cbn [w]. by rewrite Hw.
Qed.

Lemma zero_limit_witness :
  (exists s',
     handleRequest (H := myRedis_write Examples.noTable) Examples.room0 Examples.env0
       Examples.broker_up Examples.uuid (Examples.post Examples.forwarded [] "x") start
     = Some (tt, s')
     /\ status (w s') = 500%Z /\ appended s' = [])
  /\ (exists s',
        handleRequest (H := myRedis_write Examples.noTable) Examples.room0 Examples.env0
          Examples.broker_up Examples.uuid (Examples.post Examples.forwarded [] "") start
        = Some (tt, s')
        /\ appended s' = [entry Examples.env0 (Examples.post Examples.forwarded [] "") Examples.uuid]
        /\ status (w s') = 202%Z).
Proof.
  split.
  - destruct (zero_limit Examples.room0 Examples.noTable Examples.env0
                Examples.broker_up Examples.uuid
                (Examples.post Examples.forwarded [] "x") start eq_refl eq_refl) as [Hfull _].
    apply Hfull. discriminate.
  - destruct (zero_limit Examples.room0 Examples.noTable Examples.env0
                Examples.broker_up Examples.uuid
                (Examples.post Examples.forwarded [] "") start eq_refl eq_refl) as [_ Hempty].
    destruct (Hempty eq_refl eq_refl) as (s' & Hrun & Happ & Hst).
    exists s'. split; [exact Hrun|]. split; [exact Happ|]. exact (Hst eq_refl).
Defined.

(** C4 -- the answer of the broker decides the response.  For a request
    whose body was read whole: when the append returns an error the status is
    500, the response body is empty, and the line logged carries the error
    built by [write], which contains the identifier as [%q] prints it, hence
    the identifier itself when it is made of plain characters as the text of
    a UUID is; when the append succeeds the status is 202 and the response
    body is empty. *)
Theorem broker_answer_decides (room : nat -> nat) (tbl : N -> bool) {Cert : Type}
    (env : envInfo) (rc : myRedis Cert) (id : string) (r : Request) (s : World) :
  w s = newResponse ->
  within_limit env r ->
  ending (ReqBodyReader r) = io_EOF ->
  (forall e, XAdd_Err (client rc) (entry env r id) = Some e ->
     exists s' line,
       handleRequest (H := myRedis_write tbl) room env rc id r s = Some (tt, s')
       /\ status (w s') = StatusInternalServerError
       /\ written (w s') = ""
       /\ logged s' = logged s ++ [line]
       /\ contains line (Error (Errorf_publish tbl id e))
       /\ contains line (strconv.Quote tbl id)
       /\ (all strconv.plain id = true -> contains line id))
  /\ (XAdd_Err (client rc) (entry env r id) = None ->
      exists s',
        handleRequest (H := myRedis_write tbl) room env rc id r s = Some (tt, s')
        /\ status (w s') = StatusAccepted
        /\ written (w s') = "").
Proof.
  intros Hw Hin Hend. split.
  - intros e He. eexists. eexists. split; [by apply handle_broker_error|].
    cbn [w logged]. rewrite Hw. do 3 (split; [reflexivity|]).
    assert (Hq : contains
      (Sprintln ["Error asynchronous writing request to storage "; Error (Errorf_publish tbl id e)])
      (strconv.Quote tbl id)).
    { exists ("Error asynchronous writing request to storage  failed to publish "),
             (": " +:+ Error e +:+ str lf).
      unfold Sprintln, Errorf_publish. cbn [String.concat Error].
      by rewrite !app_assoc. }
    split; [|split; [exact Hq|]].
    + exists "Error asynchronous writing request to storage  ", (str lf).
      unfold Sprintln. cbn [String.concat]. by rewrite !app_assoc.
    + intros Hplain. destruct Hq as (pre & post & ->).
      rewrite (Quote_plain tbl id Hplain).
      exists (pre +:+ str dq), (str dq +:+ post).
      by rewrite !app_cons, !app_assoc.
  - intros Hok. eexists. split; [by apply handle_accepted|].
    cbn [w]. by rewrite Hw.
Qed.

Lemma broker_answer_decides_witness :
  (exists s' line,
     handleRequest (H := myRedis_write Examples.noTable) Examples.room0 Examples.env5
       Examples.broker_down Examples.uuid (Examples.post Examples.forwarded [] "hello") start
     = Some (tt, s')
     /\ status (w s') = 500%Z /\ written (w s') = ""
     /\ logged s' = [line] /\ contains line Examples.uuid)
  /\ (exists s',
        handleRequest (H := myRedis_write Examples.noTable) Examples.room0 Examples.env5
          Examples.broker_up Examples.uuid (Examples.post Examples.forwarded [] "hello") start
        = Some (tt, s')
        /\ status (w s') = 202%Z /\ written (w s') = "").
Proof.
  split.
  - destruct (broker_answer_decides Examples.room0 Examples.noTable Examples.env5
                Examples.broker_down Examples.uuid
                (Examples.post Examples.forwarded [] "hello") start
                eq_refl ltac:(vm_compute; discriminate) eq_refl) as [Hdown _].
    destruct (Hdown _ eq_refl) as (s' & line & Hrun & Hst & Hbody & Hlog & _ & _ & Hid).
    exists s', line. repeat split; try assumption. exact (Hid eq_refl).
  - destruct (broker_answer_decides Examples.room0 Examples.noTable Examples.env5
                Examples.broker_up Examples.uuid
                (Examples.post Examples.forwarded [] "hello") start
                eq_refl ltac:(vm_compute; discriminate) eq_refl) as [_ Hup].
    exact (Hup eq_refl).
Defined.

Lemma Get_originalHost (m : gmap string (slice string)) :
  Get (Some m) "Async-Original-Host"
  = match m !! "Async-Original-Host" with
    | Some (Some (v :: _)) => v
    | _ => ""
    end.
Proof. reflexivity. Qed.

(** C6 -- URL reconstruction.  For a request that carries the header
    Async-Original-Host with first value example.com and whose target is
    /v1/foo?x=1, the url of the envelope is http://example.com/v1/foo?x=1,
    and it is this envelope that the handler serializes and appends. *)
Theorem url_reconstruction (room : nat -> nat) (tbl : N -> bool) {Cert : Type}
    (env : envInfo) (rc : myRedis Cert) (id : string) (r : Request) (s : World)
    (m : gmap string (slice string)) (more : list string) :
  Header r = Some m ->
  m !! "Async-Original-Host" = Some (Some ("example.com" :: more)) ->
  URL r = "/v1/foo?x=1" ->
  (forall b, ReqURL (reqData r id b) = "http://example.com/v1/foo?x=1")
  /\ (within_limit env r -> ending (ReqBodyReader r) = io_EOF ->
      exists s' e,
        handleRequest (H := myRedis_write tbl) room env rc id r s = Some (tt, s')
        /\ appended s' = appended s ++
             [{| Stream := StreamName env; Values := {[ "data" := (json.Marshal e).1 ]} |}]
        /\ ReqURL e = "http://example.com/v1/foo?x=1").
Proof.
  intros Hh Hhost Hurl.
  assert (Hb : forall b, ReqURL (reqData r id b) = "http://example.com/v1/foo?x=1").
  { intros b. unfold reqData. cbn [ReqURL]. by rewrite Hh, Get_originalHost, Hhost, Hurl. }
  split; [exact Hb|]. intros Hin Hend.
  destruct (XAdd_Err (client rc) (entry env r id)) as [e|] eqn:Hbroker.
  - eexists. exists (reqData r id (content (ReqBodyReader r))).
    split; [by apply handle_broker_error|]. split; [done|apply Hb].
  - eexists. exists (reqData r id (content (ReqBodyReader r))).
    split; [by apply handle_accepted|]. split; [done|apply Hb].
Qed.

Lemma url_reconstruction_witness :
  ReqURL (reqData (Examples.post Examples.forwarded [] "hello") Examples.uuid "hello")
  = "http://example.com/v1/foo?x=1"
  /\ exists s' e,
       handleRequest (H := myRedis_write Examples.noTable) Examples.room0 Examples.env5
         Examples.broker_up Examples.uuid (Examples.post Examples.forwarded [] "hello") start
       = Some (tt, s')
       /\ appended s' = [{| Stream := "requests"; Values := {[ "data" := (json.Marshal e).1 ]} |}]
       /\ ReqURL e = "http://example.com/v1/foo?x=1".
Proof.
  destruct (url_reconstruction Examples.room0 Examples.noTable Examples.env5
              Examples.broker_up Examples.uuid
              (Examples.post Examples.forwarded [] "hello") start
              {[ "Async-Original-Host" := Some ["example.com"] ]} []
              eq_refl eq_refl eq_refl) as [Hurl Hrun].
  split; [apply Hurl|]. exact (Hrun ltac:(vm_compute; discriminate) eq_refl).
Defined.

(** C9 -- a request without a usable Async-Original-Host is not refused for
    it: the url of its envelope is the text http:// followed directly by the
    request target, and a body read whole goes on to the append. *)
Theorem missing_host_empty_authority (room : nat -> nat) (tbl : N -> bool) {Cert : Type}
    (env : envInfo) (rc : myRedis Cert) (id : string) (r : Request) (s : World) :
  originalHost_missing (Header r) ->
  (forall b, ReqURL (reqData r id b) = "http://" +:+ URL r)
  /\ (within_limit env r -> ending (ReqBodyReader r) = io_EOF ->
      exists s',
        handleRequest (H := myRedis_write tbl) room env rc id r s = Some (tt, s')
        /\ appended s' = appended s ++ [entry env r id]
        /\ Values (entry env r id)
           = {[ "data" := (json.Marshal (reqData r id (content (ReqBodyReader r)))).1 ]}).
Proof.
  intros Hmiss.
  assert (Hget : Get (Header r) "Async-Original-Host" = "").
  { unfold originalHost_missing in Hmiss. destruct (Header r) as [m|]; [|done].
    rewrite Get_originalHost.
    destruct (m !! "Async-Original-Host") as [[[|v vs]|]|]; done. }
  split.
  - intros b. unfold reqData. cbn [ReqURL]. by rewrite Hget.
  - intros Hin Hend.
    destruct (XAdd_Err (client rc) (entry env r id)) as [e|] eqn:Hbroker.
    + eexists. split; [by apply handle_broker_error|]. done.
    + eexists. split; [by apply handle_accepted|]. done.
Qed.

Lemma missing_host_empty_authority_witness :
  ReqURL (reqData (Examples.post (Some ∅) [] "hello") Examples.uuid "hello")
  = "http:///v1/foo?x=1"
  /\ exists s',
       handleRequest (H := myRedis_write Examples.noTable) Examples.room0 Examples.env5
         Examples.broker_up Examples.uuid (Examples.post (Some ∅) [] "hello") start
       = Some (tt, s')
       /\ appended s' = [entry Examples.env5 (Examples.post (Some ∅) [] "hello") Examples.uuid].
Proof.
  destruct (missing_host_empty_authority Examples.room0 Examples.noTable Examples.env5
              Examples.broker_up Examples.uuid
              (Examples.post (Some ∅) [] "hello") start
              ltac:(vm_compute; exact I)) as [Hurl Hrun].
  split; [apply Hurl|].
  destruct (Hrun ltac:(vm_compute; discriminate) eq_refl) as (s' & Hs & Happ & _).
  exists s'. split; assumption.
Defined.

(** The identifier in the payload. *)

Module JsonSafeFacts.
Import utf8 json BytesFacts.

Lemma safe_ascii (b : N) : htmlSafeSet b = true -> (b <? RuneSelf) = true.
Proof.
  unfold htmlSafeSet. intros Hsafe.
  do 5 (apply andb_true_iff in Hsafe as [Hsafe _]). by apply andb_true_iff in Hsafe as [_ ?].
Qed.

Lemma appendString_loop_safe (fuel : nat) : forall (s : string),
  (len s <= fuel)%nat -> all (fun c => htmlSafeSet (byte c)) s = true ->
  appendString_loop fuel s = s.
Proof.
  induction fuel as [|fuel IH]; intros [|c s] Hlen Hall; cbn in Hlen; try done; try lia.
  unfold all in Hall. cbn in Hall. apply andb_true_iff in Hall as [Hc Hall].
  cbn [appendString_loop]. rewrite (safe_ascii _ Hc), Hc. cbn [drop].
  rewrite (IH s); [done|lia|done].
Qed.

(** A text of bytes that need no escape is written between double quotes
    as it is. *)
Lemma appendString_safe (s : string) :
  all (fun c => htmlSafeSet (byte c)) s = true ->
  appendString s = String dq (s +:+ str dq).
Proof. intros Hall. unfold appendString. by rewrite appendString_loop_safe. Qed.

(** The serialized envelope begins with its member id. *)
Lemma encodeStruct_id (v : requestData) :
  encodeStruct v
  = "{" +:+ str dq +:+ "id" +:+ str dq +:+ ":" +:+ appendString (ID v) +:+ ","
    +:+ (fieldName "url" +:+ appendString (ReqURL v)
         +:+ "," +:+ fieldName "body" +:+ appendString (ReqBody v)
         +:+ "," +:+ fieldName "header" +:+ encodeMap (ReqHeader v)
         +:+ "," +:+ fieldName "method" +:+ appendString (ReqMethod v)
         +:+ "}").
Proof. reflexivity. Qed.

End JsonSafeFacts.

(** C8 -- what reaches the broker.  For a request that succeeds, the one
    entry appended goes to the configured stream and has the single field
    data, whose value is the serialized envelope; the identifier is the id
    field of that envelope.  The text of that value holds the identifier: it
    begins with the member id, whose value is the identifier as a JSON
    string, and for an identifier made of bytes that need no escape, as the
    text of a UUID is, with the identifier itself between double quotes.
    The identifier passed to [write] has no part in the entry: with another
    identifier [write] asks for the same append and leaves the same world,
    and returns the same result when the append succeeds; on failure the
    identifier shows in the error only. *)
Theorem identifier_only_in_envelope (room : nat -> nat) (tbl : N -> bool) {Cert : Type}
    (env : envInfo) (rc : myRedis Cert) (id : string) (r : Request) (s : World) :
  within_limit env r ->
  ending (ReqBodyReader r) = io_EOF ->
  XAdd_Err (client rc) (entry env r id) = None ->
  (exists s',
     handleRequest (H := myRedis_write tbl) room env rc id r s = Some (tt, s')
     /\ appended s' = appended s ++
          [{| Stream := StreamName env;
              Values := {[ "data" := json.encodeStruct (reqData r id (content (ReqBodyReader r))) ]} |}]
     /\ ID (reqData r id (content (ReqBodyReader r))) = id)
  /\ (exists rest,
        json.encodeStruct (reqData r id (content (ReqBodyReader r)))
        = "{" +:+ str dq +:+ "id" +:+ str dq +:+ ":" +:+ json.appendString id +:+ "," +:+ rest)
  /\ (all (fun c => json.htmlSafeSet (byte c)) id = true ->
      exists rest,
        json.encodeStruct (reqData r id (content (ReqBodyReader r)))
        = "{" +:+ str dq +:+ "id" +:+ str dq +:+ ":" +:+ str dq +:+ id +:+ str dq +:+ ","
          +:+ rest)
  /\ (forall reqJSON id1 id2 s0,
        snd <$> myRedis_write tbl rc env reqJSON id1 s0
        = snd <$> myRedis_write tbl rc env reqJSON id2 s0)
  /\ (forall reqJSON id1 id2 s0,
        XAdd_Err (client rc) {| Stream := StreamName env; Values := {[ "data" := reqJSON ]} |} = None ->
        myRedis_write tbl rc env reqJSON id1 s0 = myRedis_write tbl rc env reqJSON id2 s0)
  /\ (forall reqJSON id1 s0 e,
        XAdd_Err (client rc) {| Stream := StreamName env; Values := {[ "data" := reqJSON ]} |} = Some e ->
        fst <$> myRedis_write tbl rc env reqJSON id1 s0 = Some (Some (Errorf_publish tbl id1 e))).
Proof.
  intros Hin Hend Hok. split; [|split; [|split; [|split; [|split]]]].
  - eexists. split; [by apply handle_accepted|]. done.
  - eexists. apply JsonSafeFacts.encodeStruct_id.
  - intros Hsafe. eexists.
    rewrite JsonSafeFacts.encodeStruct_id.
    replace (ID (reqData r id (content (ReqBodyReader r)))) with id by reflexivity.
    rewrite (JsonSafeFacts.appendString_safe id Hsafe).
    do 5 f_equal. rewrite (app_cons dq), app_assoc. reflexivity.
  - intros. by rewrite !write_run.
  - intros reqJSON id1 id2 s0 H0. by rewrite !write_run, H0.
  - intros reqJSON id1 s0 e H0. by rewrite write_run, H0.
Qed.

Lemma identifier_only_in_envelope_witness :
  (exists s',
     handleRequest (H := myRedis_write Examples.noTable) Examples.room0 Examples.env5
       Examples.broker_up Examples.uuid (Examples.post Examples.forwarded [] "hello") start
     = Some (tt, s')
     /\ appended s' =
          [{| Stream := "requests";
              Values := {[ "data" := json.encodeStruct
                             (reqData (Examples.post Examples.forwarded [] "hello") Examples.uuid "hello") ]} |}])
  /\ (exists rest,
        json.encodeStruct
          (reqData (Examples.post Examples.forwarded [] "hello") Examples.uuid "hello")
        = "{" +:+ str dq +:+ "id" +:+ str dq +:+ ":" +:+ str dq
          +:+ "1eb1b2c3-d4e5-6f00-8a9b-0123456789ab" +:+ str dq +:+ "," +:+ rest).
Proof.
  destruct (identifier_only_in_envelope Examples.room0 Examples.noTable Examples.env5
              Examples.broker_up Examples.uuid
              (Examples.post Examples.forwarded [] "hello") start
              ltac:(vm_compute; discriminate) eq_refl eq_refl)
    as [(s' & Hs & Happ & _) [_ [Hsafe _]]].
  split.
  - exists s'. split; assumption.
  - exact (Hsafe eq_refl).
Defined.

(** ** Start-up *)

Module StartupFacts.
Import http redis producer BytesFacts.

Section Startup.
Context {Cert : Type}.
Variable pemCertificates : string -> list Cert.
Variable setupConn : string -> Options Cert + error.
Variable dial : Options Cert -> XAddArgs -> option error.

Lemma certFound_false (env : envInfo) :
  certFound pemCertificates env = false <-> TlsCert env = "" \/ pemCertificates (TlsCert env) = [].
Proof.
  unfold certFound, x509.AppendCertsFromPEM.
  destruct (TlsCert env) as [|c t]; cbn; [by split; auto|].
  destruct (pemCertificates (String c t)); cbn; split; intros; try done; auto.
  by destruct H as [?|?].
Qed.

Lemma roots_found (env : envInfo) :
  certFound pemCertificates env = true ->
  (x509.AppendCertsFromPEM pemCertificates x509.NewCertPool (TlsCert env)).1
  = pemCertificates (TlsCert env).
Proof.
  unfold certFound, x509.AppendCertsFromPEM.
  by destruct (TlsCert env) as [|c t].
Qed.

Lemma setUp_no_cert (env : envInfo) (l : list string) :
  certFound pemCertificates env = false ->
  setUpRedis pemCertificates setupConn dial env l
  = (l ++ [Sprintln ["didnt find a cert"]],
     Some {| client := NewClient dial
               {| Network := ""; Addr := RedisAddress env; Username := "";
                  Password := ""; DB := 0; TLSConfig := None |} |}).
Proof.
  unfold certFound, setUpRedis.
  destruct (x509.AppendCertsFromPEM _ _ _) as [roots found]. cbn [snd].
  by intros ->.
Qed.

Lemma setUp_cert_bad_address (env : envInfo) (l : list string) (e : error) :
  certFound pemCertificates env = true ->
  ParseURL setupConn (RedisAddress env) = inr e ->
  setUpRedis pemCertificates setupConn dial env l
  = (l ++ [Sprintln ["found a cert"]] ++ [Sprintln [Error e]], None).
Proof.
  unfold certFound, setUpRedis.
  destruct (x509.AppendCertsFromPEM _ _ _) as [roots found]. cbn [snd].
  intros -> ->. unfold mbind, P_bind, startup_Println, log_Fatal.
  by rewrite <- List.app_assoc.
Qed.

Lemma setUp_cert_address (env : envInfo) (l : list string) (o : Options Cert) :
  certFound pemCertificates env = true ->
  ParseURL setupConn (RedisAddress env) = inl o ->
  setUpRedis pemCertificates setupConn dial env l
  = (l ++ [Sprintln ["found a cert"]],
     Some {| client := NewClient dial
               {| Network := Network o; Addr := Addr o; Username := Username o;
                  Password := Password o; DB := DB o;
                  TLSConfig := Some {| RootCAs := Some (pemCertificates (TlsCert env));
                                       ServerName := "" |} |} |}).
Proof.
  intros Hfound Hurl. pose proof (roots_found env Hfound) as Hroots.
  unfold certFound in Hfound. unfold setUpRedis.
  destruct (x509.AppendCertsFromPEM _ _ _) as [roots found]. cbn [fst snd] in *.
  subst. by rewrite Hurl.
Qed.

End Startup.

(** An address of the form host:port is no URL that [ParseURL] accepts. *)
Lemma ParseURL_host_port {Cert : Type} (setupConn : string -> Options Cert + error) :
  ParseURL setupConn "localhost:6379"
  = inr (errors_New "redis: invalid URL scheme: localhost").
Proof. reflexivity. Qed.

End StartupFacts.

Import StartupFacts.

(** C3, as stated, fails: a certificate that parses does not make a stream
    writer when the broker address is no Redis URL; the process exits. *)
Lemma valid_certificate_without_writer :
  ~ (forall (Cert : Type) (pem : string -> list Cert)
            (setupConn : string -> Options Cert + error)
            (dial : Options Cert -> XAddArgs -> option error) (env : envInfo),
       certFound pem env = true ->
       exists logs rc,
         setUpRedis pem setupConn dial env [] = (logs, Some rc)
         /\ secured (client rc) = true).
Proof.
  intros Hall.
  destruct (Hall unit Examples.oneCertificate Examples.hostAfterScheme Examples.quietBroker
              (Examples.envTLS "localhost:6379") eq_refl) as (logs & rc & Hrun & _).
  vm_compute in Hrun. discriminate Hrun.
Qed.

(** C3, amended.  When the trust certificate parses and the broker address
    is a URL that [ParseURL] accepts, the stream writer is made with a secured
    channel whose trust root is the pool of the certificates parsed, and it
    connects to the address, user, password and database that [ParseURL] drew
    from the configured address.  When the certificate value is empty or holds
    no certificate that parses, the stream writer is made with an unsecured
    channel that connects to the configured address taken as it is, with no
    password and database 0; this start-up never fails. *)
Theorem tls_selection {Cert : Type} (pem : string -> list Cert)
    (setupConn : string -> Options Cert + error)
    (dial : Options Cert -> XAddArgs -> option error)
    (env : envInfo) (l : list string) :
  (forall o, certFound pem env = true ->
     ParseURL setupConn (RedisAddress env) = inl o ->
     exists logs rc,
       setUpRedis pem setupConn dial env l = (logs, Some rc)
       /\ secured (client rc) = true
       /\ TLSConfig (opt (client rc))
          = Some {| RootCAs := Some (pem (TlsCert env)); ServerName := "" |}
       /\ Addr (opt (client rc)) = Addr o
       /\ Username (opt (client rc)) = Username o
       /\ Password (opt (client rc)) = Password o
       /\ DB (opt (client rc)) = DB o)
  /\ (TlsCert env = "" \/ pem (TlsCert env) = [] ->
      exists logs rc,
        setUpRedis pem setupConn dial env l = (logs, Some rc)
        /\ secured (client rc) = false
        /\ Addr (opt (client rc)) = RedisAddress env
        /\ Password (opt (client rc)) = ""
        /\ DB (opt (client rc)) = 0%Z).
Proof.
  split.
  - intros o Hfound Hurl. eexists. eexists.
    split; [by apply setUp_cert_address|]. done.
  - intros Hnone. apply certFound_false in Hnone. eexists. eexists.
    split; [by apply setUp_no_cert|]. done.
Qed.

Lemma tls_selection_witness :
  (exists logs rc,
     setUpRedis Examples.oneCertificate Examples.hostAfterScheme Examples.quietBroker
       (Examples.envTLS "redis://localhost:6379") [] = (logs, Some rc)
     /\ secured (client rc) = true
     /\ TLSConfig (opt (client rc)) = Some {| RootCAs := Some [tt]; ServerName := "" |}
     /\ Addr (opt (client rc)) = "localhost:6379")
  /\ (exists logs rc,
        setUpRedis Examples.oneCertificate Examples.hostAfterScheme Examples.quietBroker
          Examples.env5 [] = (logs, Some rc)
        /\ secured (client rc) = false
        /\ Addr (opt (client rc)) = "localhost:6379").
Proof.
  destruct (tls_selection Examples.oneCertificate Examples.hostAfterScheme
              Examples.quietBroker (Examples.envTLS "redis://localhost:6379") [])
    as [Htls _].
  destruct (tls_selection Examples.oneCertificate Examples.hostAfterScheme
              Examples.quietBroker Examples.env5 []) as [_ Hplain].
  split.
  - destruct (Htls _ eq_refl eq_refl) as (logs & rc & Hrun & Hsec & Hcfg & Haddr & _).
    exists logs, rc. repeat split; assumption.
  - destruct (Hplain (or_introl eq_refl)) as (logs & rc & Hrun & Hsec & Haddr & _).
    exists logs, rc. repeat split; assumption.
Defined.

(** C7, as stated, fails: without a certificate the address is not parsed.
    The address localhost:6379 is refused by [ParseURL], whatever the rest of
    the library does, and the process goes on to serve with it. *)
Lemma unparseable_address_served :
  (forall (Cert : Type) (setupConn : string -> Options Cert + error),
     exists e, ParseURL setupConn (RedisAddress Examples.env5) = inr e)
  /\ (forall (Cert : Type) (pem : string -> list Cert)
             (setupConn : string -> Options Cert + error)
             (dial : Options Cert -> XAddArgs -> option error),
        exists logs srv,
          main pem setupConn dial (Examples.env5, None) [] = (logs, Some srv)
          /\ Addr (opt (client (rc srv))) = "localhost:6379").
Proof.
  split.
  - intros Cert setupConn. eexists. apply ParseURL_host_port.
  - intros Cert pem setupConn dial. eexists. eexists. split; reflexivity.
Qed.

(** C7, amended.  For every configuration whose broker address is
    unparseable: when a trust certificate is configured and parses, start-up
    is fatal, the process exits and serves no request; when the certificate
    value is empty or holds no certificate that parses, the address is never
    parsed and the process goes on to serve. *)
Theorem unparseable_address_at_startup {Cert : Type} (pem : string -> list Cert)
    (setupConn : string -> Options Cert + error)
    (dial : Options Cert -> XAddArgs -> option error)
    (env : envInfo) (e : error) (l : list string) :
  ParseURL setupConn (RedisAddress env) = inr e ->
  (certFound pem env = true ->
   exists logs, main pem setupConn dial (env, None) l = (logs, None))
  /\ (TlsCert env = "" \/ pem (TlsCert env) = [] ->
      exists logs srv, main pem setupConn dial (env, None) l = (logs, Some srv)).
Proof.
  intros Hbad. split.
  - intros Hfound. eexists. unfold main, mbind, P_bind.
    by rewrite (setUp_cert_bad_address pem setupConn dial env l e Hfound Hbad).
  - intros Hnone. apply certFound_false in Hnone. eexists. eexists.
    unfold main, mbind, P_bind. by rewrite (setUp_no_cert pem setupConn dial env l Hnone).
Qed.

Lemma unparseable_address_at_startup_witness :
  (exists logs,
     main Examples.oneCertificate Examples.hostAfterScheme Examples.quietBroker
       (Examples.envTLS "localhost:6379", None) [] = (logs, None))
  /\ (exists logs srv,
        main Examples.oneCertificate Examples.hostAfterScheme Examples.quietBroker
          (Examples.env5, None) [] = (logs, Some srv)).
Proof.
  split.
  - destruct (unparseable_address_at_startup Examples.oneCertificate Examples.hostAfterScheme
                Examples.quietBroker (Examples.envTLS "localhost:6379") _ []
                (ParseURL_host_port _)) as [Hfatal _].
    exact (Hfatal eq_refl).
  - destruct (unparseable_address_at_startup Examples.oneCertificate Examples.hostAfterScheme
                Examples.quietBroker Examples.env5 _ []
                (ParseURL_host_port _)) as [_ Hserve].
    exact (Hserve (or_introl eq_refl)).
Defined.

(** ** UTF-8 *)

Module Utf8Facts.
Import utf8 Utf8Check BytesFacts.

Lemma in_range (lo hi : N) (c : ascii) :
  lo <= byte c -> byte c <= hi -> In c (range lo hi).
Proof.
  intros Hlo Hhi. unfold range. apply in_map_iff.
  exists (N.to_nat (byte c - lo)). split.
  - rewrite N2Nat.id. replace (lo + (byte c - lo)) with (byte c) by lia.
    apply ascii_N_embedding.
  - apply in_seq. lia.
Qed.

Lemma forall_range_spec (lo hi : N) (p : ascii -> bool) :
  forall_range lo hi p = true ->
  forall c, lo <= byte c -> byte c <= hi -> p c = true.
Proof.
  unfold forall_range. rewrite forallb_forall. intros Hall c Hlo Hhi.
  apply Hall. by apply in_range.
Qed.

(** The encodings of each length, checked one by one. *)
Lemma check2_ok : forall_range 0x80 0xFF tail2 = true.
Proof. vm_compute. reflexivity. Qed.

Lemma check3_ok : forall_range 0x80 0xFF tail3 = true.
Proof. vm_compute. reflexivity. Qed.

Lemma check4_ok : forall_range 0x80 0xFF tail4 = true.
Proof. vm_compute. reflexivity. Qed.

Lemma lead_high (k : N) (c0 : ascii) : lead k c0 = true -> 0x80 <= byte c0 /\ byte c0 <= 0xFF.
Proof.
  unfold lead. intros [Hlt _]%andb_true_iff. split.
  - destruct (N.le_gt_cases 0x80 (byte c0)) as [|Hsmall]; [done|].
    unfold first in Hlt. apply N.ltb_lt in Hsmall. rewrite Hsmall in Hlt. done.
  - pose proof (N_ascii_bounded c0). unfold byte. lia.
Qed.

Lemma encode_rune2 (c0 c1 : ascii) :
  lead 2 c0 = true -> accept_lo c0 <= byte c1 -> byte c1 <= accept_hi c0 ->
  EncodeRune (rune2 (byte c0) (byte c1)) = String c0 (String c1 "").
Proof.
  intros Hlead Hlo Hhi. destruct (lead_high _ _ Hlead) as [H0 H0'].
  pose proof (forall_range_spec 0x80 0xFF tail2 check2_ok c0 H0 H0') as H.
  unfold tail2 in H. rewrite Hlead in H.
  pose proof (forall_range_spec _ _ (same2 c0) H c1 Hlo Hhi) as H1.
  apply String.eqb_eq. exact H1.
Qed.

Lemma encode_rune3 (c0 c1 c2 : ascii) :
  lead 3 c0 = true -> accept_lo c0 <= byte c1 -> byte c1 <= accept_hi c0 ->
  locb <= byte c2 -> byte c2 <= hicb ->
  EncodeRune (rune3 (byte c0) (byte c1) (byte c2)) = String c0 (String c1 (String c2 "")).
Proof.
  intros Hlead Hlo Hhi Hlo2 Hhi2. destruct (lead_high _ _ Hlead) as [H0 H0'].
  pose proof (forall_range_spec 0x80 0xFF tail3 check3_ok c0 H0 H0') as H.
  unfold tail3 in H. rewrite Hlead in H.
  pose proof (forall_range_spec _ _ (tail3b c0) H c1 Hlo Hhi) as H1.
  pose proof (forall_range_spec _ _ (same3 c0 c1) H1 c2 Hlo2 Hhi2) as H2.
  apply String.eqb_eq. exact H2.
Qed.

Lemma encode_rune4 (c0 c1 c2 c3 : ascii) :
  lead 4 c0 = true -> accept_lo c0 <= byte c1 -> byte c1 <= accept_hi c0 ->
  locb <= byte c2 -> byte c2 <= hicb -> locb <= byte c3 -> byte c3 <= hicb ->
  EncodeRune (rune4 (byte c0) (byte c1) (byte c2) (byte c3))
  = String c0 (String c1 (String c2 (String c3 ""))).
Proof.
  intros Hlead Hlo Hhi Hlo2 Hhi2 Hlo3 Hhi3. destruct (lead_high _ _ Hlead) as [H0 H0'].
  pose proof (forall_range_spec 0x80 0xFF tail4 check4_ok c0 H0 H0') as H.
  unfold tail4 in H. rewrite Hlead in H.
  pose proof (forall_range_spec _ _ (tail4b c0) H c1 Hlo Hhi) as H1.
  pose proof (forall_range_spec _ _ (tail4c c0 c1) H1 c2 Hlo2 Hhi2) as H2.
  pose proof (forall_range_spec _ _ (same4 c0 c1 c2) H2 c3 Hlo3 Hhi3) as H3.
  apply String.eqb_eq. exact H3.
Qed.

Lemma first_cases (b : N) :
  0x80 <= b ->
  first b = xx \/ first b = s1 \/ first b = s2 \/ first b = s3 \/ first b = s4
  \/ first b = s5 \/ first b = s6 \/ first b = s7.
Proof.
  intros Hb. unfold first.
  destruct (N.ltb_spec b 0x80); [lia|].
  repeat match goal with
         | |- context [if ?c then _ else _] => destruct c
         end; auto 10.
Qed.

Lemma decode_unfold (c0 : ascii) (t : string) :
  DecodeRuneInString (String c0 t)
  = let s := String c0 t in
    let x := first (byte c0) in
    if as_ <=? x then (if N.testbit x 0 then RuneError else byte c0, 1%nat)
    else if (len s <? N.to_nat (N.land x 7))%nat then (RuneError, 1%nat)
    else if out_of (acceptRanges (N.shiftr x 4)) (byte (nth_byte 1 s)) then (RuneError, 1%nat)
    else if (N.to_nat (N.land x 7) <=? 2)%nat then
      (rune2 (byte c0) (byte (nth_byte 1 s)), 2%nat)
    else if out_of (locb, hicb) (byte (nth_byte 2 s)) then (RuneError, 1%nat)
    else if (N.to_nat (N.land x 7) <=? 3)%nat then
      (rune3 (byte c0) (byte (nth_byte 1 s)) (byte (nth_byte 2 s)), 3%nat)
    else if out_of (locb, hicb) (byte (nth_byte 3 s)) then (RuneError, 1%nat)
    else (rune4 (byte c0) (byte (nth_byte 1 s)) (byte (nth_byte 2 s)) (byte (nth_byte 3 s)), 4%nat).
Proof. reflexivity. Qed.

Lemma out_of_false (lo hi b : N) : out_of (lo, hi) b = false -> lo <= b /\ b <= hi.
Proof.
  unfold out_of. cbn [fst snd]. intros [H1 H2]%orb_false_iff.
  apply N.ltb_ge in H1, H2. done.
Qed.

(** The size, the range and the tests that an entry of [first] stands for. *)
Ltac table_values :=
  match goal with
  | Hx : first _ = ?x |- _ =>
      let sz := eval vm_compute in (N.to_nat (N.land x 7)) in
      let acc := eval vm_compute in (acceptRanges (N.shiftr x 4)) in
      let asb := eval vm_compute in (as_ <=? x) in
      let tb := eval vm_compute in (N.testbit x 0) in
      let ltb := eval vm_compute in (x <? as_) in
      let k := eval vm_compute in (N.land x 7) in
      change (N.to_nat (N.land x 7)) with sz in *;
      change (acceptRanges (N.shiftr x 4)) with acc in *;
      change (as_ <=? x) with asb in *;
      change (x <? as_) with ltb in *;
      change (N.land x 7) with k in *;
      change (N.testbit x 0) with tb in *
  end.

(** A multi-byte encoding that decodes: it has from two to four bytes, all
    of them there; encoding its rune gives these bytes back; and what follows
    them has no part in the decoding. *)
Lemma decode_valid (c0 : ascii) (t : string) (r : N) (size : nat) :
  RuneSelf <= byte c0 ->
  DecodeRuneInString (String c0 t) = (r, size) ->
  (r =? RuneError) && (size =? 1)%nat = false ->
  (2 <= size)%nat /\ (size <= len (String c0 t))%nat
  /\ EncodeRune r = take size (String c0 t)
  /\ forall Y, DecodeRuneInString (take size (String c0 t) +:+ Y) = (r, size).
Proof.
  intros Hhigh Hdec Hne. rewrite decode_unfold in Hdec. cbv zeta in Hdec.
  destruct (first_cases (byte c0) Hhigh) as [Hx|[Hx|[Hx|[Hx|[Hx|[Hx|[Hx|Hx]]]]]]].
  all: rewrite Hx in Hdec; table_values.
  all: destruct t as [|c1 [|c2 [|c3 t3]]].
  all: cbn -[out_of rune2 rune3 rune4 byte] in Hdec.
  all: repeat match type of Hdec with
              | (if ?c then _ else _) = _ => destruct c eqn:?
              end.
  all: injection Hdec as <- <-.
  all: try (cbn in Hne; discriminate Hne).
  all: repeat match goal with
              | H : out_of (_, _) _ = false |- _ => apply out_of_false in H; destruct H
              end.
  all: unfold locb, hicb in *.
  all: split; [lia|]; split; [cbn; lia|]; split.
  all: try (intros Y; cbn [take]; rewrite !app_cons, app_nil_l, decode_unfold; cbv zeta;
            rewrite Hx; table_values; cbn -[out_of rune2 rune3 rune4 byte];
            unfold out_of; cbn -[rune2 rune3 rune4 byte]; unfold locb, hicb;
            repeat match goal with
                   | |- context [?a <? ?b] =>
                       replace (a <? b) with false by (symmetry; apply N.ltb_ge; lia)
                   end;
            reflexivity).
  all: cbn [take];
       first [apply encode_rune2 | apply encode_rune3 | apply encode_rune4];
       unfold lead, accept_lo, accept_hi, locb, hicb; rewrite ?Hx; table_values;
       try reflexivity; cbn -[byte N.le]; lia.
Qed.

Lemma first_ascii (b : N) : b < 0x80 -> first b = as_.
Proof. intros Hb. unfold first. by destruct (N.ltb_spec b 0x80); [|lia]. Qed.

(** [appendString] decodes a window of at most four bytes: the result is
    that of decoding the whole string. *)
Lemma decode_window (s : string) :
  DecodeRuneInString (take (Nat.min (len s) UTFMax) s) = DecodeRuneInString s.
Proof.
  destruct s as [|c0 [|c1 [|c2 [|c3 [|c4 t]]]]]; try reflexivity.
  change (take _ _) with (String c0 (String c1 (String c2 (String c3 "")))).
  rewrite !decode_unfold. cbv zeta.
  destruct (N.lt_ge_cases (byte c0) 0x80) as [Hlow|Hhigh].
  - rewrite (first_ascii _ Hlow). reflexivity.
  - destruct (first_cases (byte c0) Hhigh) as [Hx|[Hx|[Hx|[Hx|[Hx|[Hx|[Hx|Hx]]]]]]];
      rewrite Hx; table_values; reflexivity.
Qed.

(** A byte that is not ASCII is none of the characters the decoder of string
    literals looks for. *)
Lemma high_byte (c : ascii) :
  RuneSelf <= byte c ->
  Ascii.eqb c dq = false /\ Ascii.eqb c bs = false
  /\ (byte c <? 0x20) = false /\ (byte c <? RuneSelf) = false.
Proof.
  destruct c as [[] [] [] [] [] [] [] []]; intros H; vm_compute in H;
    first [by destruct H | repeat split; reflexivity].
Qed.

End Utf8Facts.

(** ** Serialization *)

Module JsonFacts.
Import utf8 Utf8Check json BytesFacts Utf8Facts.

(** The escape of one ASCII byte is read back as that byte. *)
Lemma unquote_ascii (c : ascii) (fuel : nat) (X : string) :
  (byte c <? RuneSelf) = true ->
  unquote_loop (S fuel) ((if htmlSafeSet (byte c) then str c else escapeByte c) +:+ X)
  = '(v, rest) ← unquote_loop fuel X; Some (String c v, rest).
Proof.
  destruct c as [[] [] [] [] [] [] [] []]; intros H;
    first [discriminate H | reflexivity].
Qed.

Lemma escape_nonempty (c : ascii) :
  (1 <= len (if htmlSafeSet (byte c) then str c else escapeByte c))%nat.
Proof.
  destruct (htmlSafeSet (byte c)); [cbn; lia|].
  unfold escapeByte. repeat match goal with |- context [if ?b then _ else _] => destruct b end;
    cbn; lia.
Qed.

Lemma appendString_ascii (fuel : nat) (c : ascii) (t : string) :
  (byte c <? RuneSelf) = true ->
  appendString_loop (S fuel) (String c t)
  = (if htmlSafeSet (byte c) then str c else escapeByte c) +:+ appendString_loop fuel t.
Proof. intros H. cbn [appendString_loop]. by rewrite H. Qed.

Lemma appendString_multi (fuel : nat) (c : ascii) (t : string) (r : N) (size : nat) :
  (byte c <? RuneSelf) = false ->
  DecodeRuneInString (String c t) = (r, size) ->
  (r =? RuneError) && (size =? 1)%nat = false ->
  appendString_loop (S fuel) (String c t)
  = written_for r (take size (String c t))
    +:+ appendString_loop fuel (drop size (String c t)).
Proof.
  intros Hhigh Hdec Hne. cbn [appendString_loop]. rewrite Hhigh.
  rewrite decode_window, Hdec, Hne. unfold written_for.
  destruct ((r =? 0x2028) || (r =? 0x2029)); [|done].
  by rewrite app_assoc.
Qed.

(** A byte that is no UTF-8 is written as the escape of U+FFFD. *)
Lemma appendString_invalid (fuel : nat) (c : ascii) (t : string) :
  (byte c <? RuneSelf) = false ->
  DecodeRuneInString (String c t) = (RuneError, 1%nat) ->
  appendString_loop (S fuel) (String c t)
  = String bs "ufffd" +:+ appendString_loop fuel t.
Proof.
  intros Hhigh Hdec. cbn [appendString_loop]. rewrite Hhigh.
  by rewrite decode_window, Hdec.
Qed.

Lemma unquote_high (fuel : nat) (c : ascii) (Z : string) :
  RuneSelf <= byte c ->
  unquote_loop (S fuel) (String c Z)
  = let '(rr, size) := DecodeRuneInString (String c Z) in
    '(v, rest) ← unquote_loop fuel (drop size (String c Z));
    Some (EncodeRune rr +:+ v, rest).
Proof.
  intros Hhigh. destruct (high_byte c Hhigh) as (H1 & H2 & H3 & H4).
  cbn [unquote_loop]. by rewrite H1, H2, H3, H4.
Qed.

Lemma unquote_multi (fuel : nat) (c : ascii) (t : string) (r : N) (size : nat) (X : string) :
  RuneSelf <= byte c ->
  DecodeRuneInString (String c t) = (r, size) ->
  (r =? RuneError) && (size =? 1)%nat = false ->
  unquote_loop (S fuel) (written_for r (take size (String c t)) +:+ X)
  = '(v, rest) ← unquote_loop fuel X; Some (take size (String c t) +:+ v, rest).
Proof.
  intros Hhigh Hdec Hne.
  destruct (decode_valid c t r size Hhigh Hdec Hne) as (Hsize & Hlen & Henc & Hindep).
  unfold written_for.
  destruct (r =? 0x2028) eqn:H28; [|destruct (r =? 0x2029) eqn:H29]; cbn [orb].
  - apply N.eqb_eq in H28. subst r. rewrite <- Henc. reflexivity.
  - apply N.eqb_eq in H29. subst r. rewrite <- Henc. reflexivity.
  - destruct size as [|k]; [lia|]. cbn [take]. rewrite app_cons.
    rewrite unquote_high by done.
    change (String c (take k t +:+ X)) with (take (S k) (String c t) +:+ X).
    rewrite Hindep.
    replace (S k) with (len (take (S k) (String c t))) at 1
      by (rewrite len_take; lia).
    by rewrite drop_app_len, Henc.
Qed.

Lemma written_nonempty (c : ascii) (t : string) (r : N) (size : nat) :
  (2 <= size)%nat -> (size <= len (String c t))%nat ->
  (1 <= len (written_for r (take size (String c t))))%nat.
Proof.
  intros H1 H2. unfold written_for. destruct (_ || _); [rewrite len_app; cbn; lia|].
  rewrite len_take. lia.
Qed.

(** A string literal round trip: the body that [appendString] writes for a
    well-formed string, up to the closing quote, is read back as the
    string. *)
Lemma unquote_appendString (n : nat) : forall (s : string),
  (len s <= n)%nat -> valid_loop n s = true ->
  forall f1 f2 rest,
    (n <= f1)%nat -> (len (appendString_loop f1 s) < f2)%nat ->
    unquote_loop f2 (appendString_loop f1 s +:+ String dq rest) = Some (s, rest).
Proof.
  induction n as [|n IH]; intros s Hlen Hvalid f1 f2 rest Hf1 Hf2.
  - destruct s; [|cbn in Hlen; lia].
    destruct f1; destruct f2; cbn in Hf2; try lia; reflexivity.
  - destruct s as [|c t].
    { destruct f1; destruct f2; cbn in Hf2; try lia; reflexivity. }
    destruct f1 as [|f1]; [lia|].
    cbn [valid_loop] in Hvalid. cbn in Hlen.
    destruct (byte c <? RuneSelf) eqn:Hc.
    + rewrite appendString_ascii in * by done.
      rewrite len_app in Hf2. pose proof (escape_nonempty c).
      destruct f2 as [|f2]; [lia|].
      rewrite app_assoc, unquote_ascii by done.
      rewrite (IH t); [done|lia|exact Hvalid|lia|lia].
    + destruct (DecodeRuneInString (String c t)) as [r size] eqn:Hdec.
      destruct ((r =? RuneError) && (size =? 1)%nat) eqn:Hne; [done|].
      apply N.ltb_ge in Hc.
      destruct (decode_valid c t r size Hc Hdec Hne) as (Hsize & Hsl & _ & _).
      rewrite (appendString_multi f1 c t r size) in * by (done || by apply N.ltb_ge).
      rewrite len_app in Hf2. pose proof (written_nonempty c t r size Hsize Hsl).
      destruct f2 as [|f2]; [lia|].
      rewrite app_assoc, (unquote_multi f2 c t r size) by done.
      rewrite (IH (drop size (String c t))); [|rewrite len_drop; cbn; lia|exact Hvalid|lia|lia].
      cbn [mbind option_bind]. by rewrite take_drop.
Qed.

End JsonFacts.

Module JsonStructureFacts.
Import utf8 Utf8Check json BytesFacts Utf8Facts JsonFacts.

Lemma literal_null (rest : string) : literal "null" ("null" +:+ rest) = Some (tt, rest).
Proof. unfold literal. cbn. by destruct rest. Qed.

Lemma literal_null_quote (Z : string) : literal "null" (String dq Z) = None.
Proof. reflexivity. Qed.

Lemma appendString_head (s : string) :
  appendString s = String dq (appendString_loop (len s) s +:+ str dq).
Proof. reflexivity. Qed.

Lemma len_appendString (s : string) :
  len (appendString s) = S (S (len (appendString_loop (len s) s))).
Proof. rewrite appendString_head. cbn. rewrite len_app. cbn. lia. Qed.

Lemma parseString_appendString (s : string) (fuel : nat) (rest : string) :
  ValidString s = true ->
  (len (appendString s) <= fuel)%nat ->
  parseString fuel (appendString s +:+ rest) = Some (s, rest).
Proof.
  intros Hvalid Hfuel. rewrite len_appendString in Hfuel.
  rewrite appendString_head, app_cons, app_assoc.
  unfold parseString. cbn [expect]. change (Ascii.eqb dq dq) with true.
  cbn [mbind option_bind]. change (str dq +:+ rest) with (String dq rest).
  apply (unquote_appendString (len s)); try done; lia.
Qed.

Lemma parseStringValue_appendString (s : string) (fuel : nat) (rest : string) :
  ValidString s = true ->
  (len (appendString s) <= fuel)%nat ->
  parseStringValue fuel (appendString s +:+ rest) = Some (s, rest).
Proof.
  intros Hvalid Hfuel. unfold parseStringValue.
  rewrite appendString_head at 1. rewrite app_cons, literal_null_quote.
  by apply parseString_appendString.
Qed.

(** The elements of a non-empty slice, up to the closing bracket. *)
Lemma parseElements_ok (l : list string) : forall (v : string) (fuel : nat) (rest : string),
  forallb ValidString (v :: l) = true ->
  (len (String.concat "," (appendString <$> (v :: l)) +:+ "]") <= fuel)%nat ->
  parseElements fuel (String.concat "," (appendString <$> (v :: l)) +:+ "]" +:+ rest)
  = Some (v :: l, rest).
Proof.
  induction l as [|v' l IH]; intros v fuel rest Hvalid Hfuel;
    cbn [forallb] in Hvalid; apply andb_true_iff in Hvalid as [Hv Hl].
  - cbn [fmap list_fmap String.concat] in *. rewrite len_app in Hfuel.
    cbn [String.length] in Hfuel.
    destruct fuel as [|fuel]; [lia|]. cbn [parseElements].
    rewrite parseStringValue_appendString by (done || lia).
    reflexivity.
  - change (String.concat "," (appendString <$> v :: v' :: l))
      with (appendString v +:+ "," +:+ String.concat "," (appendString <$> v' :: l)) in *.
    rewrite !app_assoc in *. rewrite !len_app in Hfuel. cbn [String.length] in Hfuel.
    destruct fuel as [|fuel]; [lia|]. cbn [parseElements].
    rewrite parseStringValue_appendString by (done || lia).
    cbn [mbind option_bind]. rewrite app_cons, app_nil_l.
    rewrite IH; [done|done|rewrite len_app; cbn [String.length]; lia].
Qed.

Lemma quoted_appendString (s rest : string) : quoted (appendString s +:+ rest).
Proof. rewrite appendString_head, app_cons. by eexists. Qed.

Lemma quoted_concat (f : string -> string) (x : string) (l : list string) (rest : string) :
  (forall y, quoted (f y +:+ "")) ->
  quoted (String.concat "," (f <$> x :: l) +:+ rest).
Proof.
  intros Hf. destruct (Hf x) as [Z HZ]. rewrite app_nil_r in HZ.
  destruct l; cbn [fmap list_fmap String.concat]; rewrite HZ, ?app_cons; by eexists.
Qed.

Lemma parseSlice_open (fuel : nat) (s : string) :
  quoted s ->
  parseSlice fuel (String "[" s)
  = '(vs, rest) ← parseElements fuel s; Some (Some vs, rest).
Proof. intros [Z ->]. reflexivity. Qed.

Lemma parseSlice_ok (v : slice string) (fuel : nat) (rest : string) :
  validSlice v = true ->
  (len (encodeSlice v) <= fuel)%nat ->
  parseSlice fuel (encodeSlice v +:+ rest) = Some (v, rest).
Proof.
  intros Hvalid Hfuel. destruct v as [[|x l]|]; unfold encodeSlice in *.
  - reflexivity.
  - cbn [validSlice] in Hvalid.
    change ("[" +:+ ?a +:+ "]") with (String "[" (a +:+ "]")) in *.
    cbn [String.length] in Hfuel.
    rewrite app_cons, app_assoc.
    rewrite parseSlice_open by (apply quoted_concat; intros; apply quoted_appendString).
    by rewrite parseElements_ok by (done || lia).
  - unfold parseSlice. by rewrite literal_null.
Qed.

Lemma len_encodeEntry (kv : string * slice string) :
  len (encodeEntry kv) = (len (appendString kv.1) + S (len (encodeSlice kv.2)))%nat.
Proof. unfold encodeEntry. by rewrite !len_app. Qed.

(** The entries of a non-empty map, up to the closing brace: each is stored
    in the map read so far. *)
Lemma parseEntries_ok (l : list (string * slice string)) :
  forall (kv : string * slice string) (fuel : nat)
         (acc : gmap string (slice string)) (rest : string),
  forallb validEntry (kv :: l) = true ->
  (len (String.concat "," (encodeEntry <$> (kv :: l)) +:+ "}") <= fuel)%nat ->
  parseEntries fuel acc (String.concat "," (encodeEntry <$> (kv :: l)) +:+ "}" +:+ rest)
  = Some (foldl store acc (kv :: l), rest).
Proof.
  induction l as [|kv' l IH]; intros kv fuel acc rest Hvalid Hfuel;
    cbn [forallb] in Hvalid; apply andb_true_iff in Hvalid as [Hkv Hl];
    apply andb_true_iff in Hkv as [Hk Hv].
  - cbn [fmap list_fmap String.concat] in *. rewrite len_app, len_encodeEntry in Hfuel.
    cbn [String.length] in Hfuel.
    destruct fuel as [|fuel]; [lia|]. cbn [parseEntries].
    unfold encodeEntry. rewrite !app_assoc.
    rewrite parseString_appendString by (done || lia).
    cbn [mbind option_bind]. rewrite app_cons, app_nil_l. cbn [expect Ascii.eqb Bool.eqb].
    cbn [mbind option_bind]. rewrite parseSlice_ok by (done || lia).
    reflexivity.
  - change (String.concat "," (encodeEntry <$> kv :: kv' :: l))
      with (encodeEntry kv +:+ "," +:+ String.concat "," (encodeEntry <$> kv' :: l)) in *.
    rewrite !len_app, len_encodeEntry in Hfuel. cbn [String.length] in Hfuel.
    destruct fuel as [|fuel]; [lia|]. cbn [parseEntries].
    unfold encodeEntry at 1. rewrite !app_assoc.
    rewrite parseString_appendString by (done || lia).
    cbn [mbind option_bind]. rewrite app_cons, app_nil_l. cbn [expect Ascii.eqb Bool.eqb].
    cbn [mbind option_bind]. rewrite parseSlice_ok by (done || lia).
    cbn [mbind option_bind]. rewrite app_cons, app_nil_l.
    rewrite IH; [done|done|rewrite len_app; cbn [String.length]; lia].
Qed.

Lemma foldl_store (l : list (string * slice string)) : forall acc,
  NoDup l.*1 -> foldl store acc l = list_to_map l ∪ acc.
Proof.
  induction l as [|[k v] l IH]; intros acc Hnd; cbn [foldl].
  - unfold list_to_map. cbn [foldr]. by rewrite (left_id_L ∅ (∪)).
  - apply NoDup_cons in Hnd as [Hk Hnd]. rewrite IH by done.
    unfold store. cbn [fst snd list_to_map foldr].
    rewrite <- insert_union_l, <- insert_union_r; [done|].
    by apply not_elem_of_list_to_map_1.
Qed.

Lemma sortedEntries_perm (m : gmap string (slice string)) :
  sortedEntries m ≡ₚ map_to_list m.
Proof. apply merge_sort_Permutation. Qed.

Lemma foldl_store_sorted (m : gmap string (slice string)) :
  foldl store ∅ (sortedEntries m) = m.
Proof.
  rewrite foldl_store.
  - rewrite (right_id_L ∅ (∪)).
    rewrite (list_to_map_proper _ (map_to_list m)).
    + apply list_to_map_to_list.
    + rewrite sortedEntries_perm. apply NoDup_fst_map_to_list.
    + apply sortedEntries_perm.
  - rewrite sortedEntries_perm. apply NoDup_fst_map_to_list.
Qed.

Lemma parseMap_open (fuel : nat) (s : string) :
  quoted s ->
  parseMap fuel (String "{" s)
  = '(m, rest) ← parseEntries fuel ∅ s; Some (Some m, rest).
Proof. intros [Z ->]. reflexivity. Qed.

Lemma quoted_encodeEntry (kv : string * slice string) : quoted (encodeEntry kv +:+ "").
Proof. unfold encodeEntry. rewrite !app_assoc. apply quoted_appendString. Qed.

Lemma parseMap_ok (h : header_map) (fuel : nat) (rest : string) :
  validHeader h = true ->
  (len (encodeMap h) <= fuel)%nat ->
  parseMap fuel (encodeMap h +:+ rest) = Some (h, rest).
Proof.
  intros Hvalid Hfuel. destruct h as [m|]; unfold encodeMap in *.
  - cbn [validHeader] in Hvalid.
    assert (Hsorted : forallb validEntry (sortedEntries m) = true).
    { apply forallb_forall. intros kv Hin. rewrite forallb_forall in Hvalid.
      apply Hvalid. apply list_elem_of_In. rewrite <- sortedEntries_perm.
      by apply list_elem_of_In. }
    pose proof (foldl_store_sorted m) as Hm.
    destruct (sortedEntries m) as [|kv l] eqn:Hs.
    + cbn in Hm. subst m. reflexivity.
    + change ("{" +:+ ?a +:+ "}") with (String "{" (a +:+ "}")) in *.
      cbn [String.length] in Hfuel.
      rewrite app_cons, app_assoc.
      rewrite parseMap_open.
      2:{ destruct (quoted_encodeEntry kv) as [Z HZ]. rewrite app_nil_r in HZ.
          destruct l; cbn [fmap list_fmap String.concat]; rewrite HZ, ?app_cons; by eexists. }
      rewrite parseEntries_ok by (done || lia).
      cbn [mbind option_bind]. by rewrite Hm.
  - unfold parseMap. by rewrite literal_null.
Qed.

End JsonStructureFacts.

Module UnmarshalFacts.
Import utf8 Utf8Check json BytesFacts Utf8Facts JsonFacts JsonStructureFacts.

Lemma fieldName_quoted (name : string) : fieldName name = String dq (name +:+ String dq ":").
Proof. reflexivity. Qed.

Ltac member_ok :=
  intros Hvalid Hfuel; rewrite len_app in Hfuel;
  unfold parseMember;
  match goal with
  | |- context [fieldName ?name] =>
      let k := eval vm_compute in (len (fieldName name)) in
      change (len (fieldName name)) with k in Hfuel;
      let k' := eval vm_compute in (len (appendString name)) in
      match type of Hfuel with
      | (_ <= ?fuel)%nat =>
          assert (len (appendString name) <= fuel)%nat
            by (change (len (appendString name)) with k'; lia)
      end;
      change (fieldName name) with (appendString name +:+ ":");
      rewrite app_assoc;
      rewrite (parseString_appendString name) by (reflexivity || assumption)
  end;
  cbn [mbind option_bind]; rewrite app_cons, app_nil_l;
  cbn [expect Ascii.eqb Bool.eqb]; cbn [mbind option_bind];
  cbn [String.eqb Ascii.eqb Bool.eqb].

Lemma parseMember_id (fuel : nat) (v : requestData) (x X : string) :
  ValidString x = true ->
  (len (fieldName "id" +:+ appendString x) <= fuel)%nat ->
  parseMember fuel v (fieldName "id" +:+ appendString x +:+ X)
  = Some ({| ID := x; ReqURL := ReqURL v; ReqBody := ReqBody v;
             ReqHeader := ReqHeader v; ReqMethod := ReqMethod v |}, X).
Proof.
  member_ok. by rewrite parseStringValue_appendString by (done || lia).
Qed.

Lemma parseMember_url (fuel : nat) (v : requestData) (x X : string) :
  ValidString x = true ->
  (len (fieldName "url" +:+ appendString x) <= fuel)%nat ->
  parseMember fuel v (fieldName "url" +:+ appendString x +:+ X)
  = Some ({| ID := ID v; ReqURL := x; ReqBody := ReqBody v;
             ReqHeader := ReqHeader v; ReqMethod := ReqMethod v |}, X).
Proof.
  member_ok. by rewrite parseStringValue_appendString by (done || lia).
Qed.

Lemma parseMember_body (fuel : nat) (v : requestData) (x X : string) :
  ValidString x = true ->
  (len (fieldName "body" +:+ appendString x) <= fuel)%nat ->
  parseMember fuel v (fieldName "body" +:+ appendString x +:+ X)
  = Some ({| ID := ID v; ReqURL := ReqURL v; ReqBody := x;
             ReqHeader := ReqHeader v; ReqMethod := ReqMethod v |}, X).
Proof.
  member_ok. by rewrite parseStringValue_appendString by (done || lia).
Qed.

Lemma parseMember_header (fuel : nat) (v : requestData) (x : header_map) (X : string) :
  validHeader x = true ->
  (len (fieldName "header" +:+ encodeMap x) <= fuel)%nat ->
  parseMember fuel v (fieldName "header" +:+ encodeMap x +:+ X)
  = Some ({| ID := ID v; ReqURL := ReqURL v; ReqBody := ReqBody v;
             ReqHeader := x; ReqMethod := ReqMethod v |}, X).
Proof.
  member_ok. by rewrite parseMap_ok by (done || lia).
Qed.

Lemma parseMember_method (fuel : nat) (v : requestData) (x X : string) :
  ValidString x = true ->
  (len (fieldName "method" +:+ appendString x) <= fuel)%nat ->
  parseMember fuel v (fieldName "method" +:+ appendString x +:+ X)
  = Some ({| ID := ID v; ReqURL := ReqURL v; ReqBody := ReqBody v;
             ReqHeader := ReqHeader v; ReqMethod := x |}, X).
Proof.
  member_ok. by rewrite parseStringValue_appendString by (done || lia).
Qed.

Lemma parseStruct_open (fuel : nat) (s : string) :
  quoted s -> parseStruct fuel (String "{" s) = parseMembers fuel zero s.
Proof. intros [Z ->]. reflexivity. Qed.

(** Deserializing the serialization of an envelope whose texts are
    well-formed UTF-8 gives the envelope back. *)
Lemma Unmarshal_encodeStruct (v : requestData) :
  validEnvelope v = true -> Unmarshal (encodeStruct v) = Some v.
Proof.
  unfold validEnvelope. intros Hvalid.
  repeat (apply andb_true_iff in Hvalid as [Hvalid ?]).
  unfold Unmarshal.
  assert (Hlen : exists k,
    len (encodeStruct v)
    = S (S (S (S (S k))))
    /\ (len (fieldName "id" +:+ appendString (ID v)) <= k)%nat
    /\ (len (fieldName "url" +:+ appendString (ReqURL v)) <= k)%nat
    /\ (len (fieldName "body" +:+ appendString (ReqBody v)) <= k)%nat
    /\ (len (fieldName "header" +:+ encodeMap (ReqHeader v)) <= k)%nat
    /\ (len (fieldName "method" +:+ appendString (ReqMethod v)) <= k)%nat).
  { exists (len (fieldName "id" +:+ appendString (ID v))
            + len (fieldName "url" +:+ appendString (ReqURL v))
            + len (fieldName "body" +:+ appendString (ReqBody v))
            + len (fieldName "header" +:+ encodeMap (ReqHeader v))
            + len (fieldName "method" +:+ appendString (ReqMethod v)) + 1)%nat.
    split; [|repeat split; lia].
    unfold encodeStruct. rewrite !len_app. cbn [String.length]. lia. }
  destruct Hlen as (k & -> & L1 & L2 & L3 & L4 & L5).
  unfold encodeStruct. rewrite app_cons, app_nil_l.
  rewrite parseStruct_open by (rewrite fieldName_quoted, app_cons; by eexists).
  cbn [parseMembers].
  rewrite parseMember_id by (done || lia). cbn [mbind option_bind]. rewrite app_cons, app_nil_l.
  rewrite parseMember_url by (done || lia). cbn [mbind option_bind]. rewrite app_cons, app_nil_l.
  rewrite parseMember_body by (done || lia). cbn [mbind option_bind]. rewrite app_cons, app_nil_l.
  rewrite parseMember_header by (done || lia). cbn [mbind option_bind]. rewrite app_cons, app_nil_l.
  rewrite parseMember_method by (done || lia). cbn [mbind option_bind].
  by destruct v.
Qed.

End UnmarshalFacts.

Import json UnmarshalFacts.

(** C2, as stated, fails: a body that is not UTF-8 is not preserved.  The
    envelope of a request whose body is the single byte FF is serialized with
    the escape of U+FFFD in its place and comes back with the three bytes of
    that character.  The envelope whose body is the byte FE has the very same
    serialization, so no deserializer can give both back. *)
Lemma non_utf8_body_not_preserved :
  Unmarshal (Marshal (Examples.envelope Examples.byteFF)).1
  = Some (Examples.envelope Examples.replacement)
  /\ Examples.envelope Examples.replacement <> Examples.envelope Examples.byteFF
  /\ (Marshal (Examples.envelope Examples.byteFF)).1
     = (Marshal (Examples.envelope Examples.byteFE)).1
  /\ Examples.envelope Examples.byteFF <> Examples.envelope Examples.byteFE.
Proof.
  split; [|split; [|split]].
  - vm_compute. reflexivity.
  - intros Heq. apply (f_equal ReqBody) in Heq. vm_compute in Heq. discriminate Heq.
  - vm_compute. reflexivity.
  - intros Heq. apply (f_equal ReqBody) in Heq. vm_compute in Heq. discriminate Heq.
Qed.

(** C2, amended.  For every envelope whose identifier, url, body, method and
    header names and values are well-formed UTF-8, serializing it and then
    deserializing the result gives an envelope equal to the original: the
    five fields are preserved exactly, repeated header values and their order
    included. *)
Theorem serialization_round_trip (v : requestData) :
  validEnvelope v = true ->
  Unmarshal (Marshal v).1 = Some v.
Proof. intros Hvalid. by apply Unmarshal_encodeStruct. Qed.

Lemma serialization_round_trip_witness :
  Unmarshal (Marshal Examples.repeated).1 = Some Examples.repeated.
Proof.
  apply (serialization_round_trip Examples.repeated). vm_compute. reflexivity.
Defined.


(** * Further properties *)

(** ** The scheme of the broker address *)

Module SchemeFacts.
Import http redis producer BytesFacts.

(** A scheme that [getScheme] finds is followed by a colon in the URL. *)
Lemma getScheme_loop_colon (rawURL : string) : forall (rest pre sch : string),
  rawURL = pre +:+ rest ->
  getScheme_loop (len pre) rawURL rest = (sch, None) ->
  sch <> "" ->
  exists t, rawURL = sch +:+ ":" +:+ t.
Proof.
  induction rest as [|c rest IH]; intros pre sch Hraw Hrun Hsch.
  - cbn in Hrun. congruence.
  - assert (Hnext : rawURL = (pre +:+ str c) +:+ rest) by by rewrite app_assoc.
    assert (Hlen : len (pre +:+ str c) = S (len pre)) by (rewrite len_app; cbn; lia).
    cbn [getScheme_loop] in Hrun.
    destruct (isLower (byte c) || isUpper (byte c)).
    { rewrite <- Hlen in Hrun. by apply (IH _ _ Hnext Hrun). }
    destruct (isDigit (byte c) || (byte c =? 0x2B) || (byte c =? 0x2D) || (byte c =? 0x2E)).
    { destruct (len pre =? 0)%nat; [congruence|].
      rewrite <- Hlen in Hrun. by apply (IH _ _ Hnext Hrun). }
    destruct (byte c =? 0x3A) eqn:Hcolon; [|congruence].
    destruct (len pre =? 0)%nat; [congruence|].
    injection Hrun as Hrun. rewrite Hraw, take_app_len in Hrun. subst sch.
    exists rest. rewrite Hraw. do 2 f_equal.
    apply N.eqb_eq in Hcolon. unfold byte in Hcolon.
    rewrite <- (ascii_N_embedding c), Hcolon. reflexivity.
Qed.

(** What comes before the fragment of a URL is the beginning of the URL. *)
Lemma cutFragment_prefix : forall (x a y : string),
  cutFragment a = x +:+ y -> exists y', a = x +:+ y'.
Proof.
  induction x as [|c x IH]; intros a y Hcut; [by exists a|].
  destruct a as [|c' a]; [discriminate Hcut|].
  cbn [cutFragment] in Hcut. destruct (Ascii.eqb c' "#"); [discriminate Hcut|].
  rewrite app_cons in Hcut. injection Hcut as -> Hcut.
  destruct (IH a y Hcut) as [y' ->]. by exists y'.
Qed.

(** An address that [ParseURL] accepts begins with one of its three
    schemes, in letters of either case, and a colon. *)
Lemma ParseURL_scheme {Cert : Type} (setupConn : string -> Options Cert + error)
    (address : string) (o : Options Cert) :
  ParseURL setupConn address = inl o ->
  exists sch rest,
    address = sch +:+ ":" +:+ rest
    /\ (ToLower sch = "redis" \/ ToLower sch = "rediss" \/ ToLower sch = "unix").
Proof.
  unfold ParseURL. destruct (stringContainsCTLByte (cutFragment address)); [done|].
  destruct (getScheme (cutFragment address)) as [sch [err|]] eqn:Hsch; [done|].
  destruct (String.eqb (ToLower sch) "redis" || String.eqb (ToLower sch) "rediss"
            || String.eqb (ToLower sch) "unix") eqn:Hok; [|done].
  intros _.
  assert (Hne : sch <> "") by (intros ->; discriminate Hok).
  destruct (getScheme_loop_colon (cutFragment address) (cutFragment address) "" sch
              eq_refl Hsch Hne) as [t Ht].
  assert (Hcut : cutFragment address = (sch +:+ ":") +:+ t) by by rewrite app_assoc.
  destruct (cutFragment_prefix _ address _ Hcut) as [rest Hrest].
  exists sch, rest. split; [by rewrite Hrest, app_assoc|].
  apply orb_true_iff in Hok as [Hok|Hok]; [apply orb_true_iff in Hok as [Hok|Hok]|];
    apply String.eqb_eq in Hok; auto.
Qed.

End SchemeFacts.

(** ** The ways a request ends *)

Module HandlerCases.
Import server.

Section Cases.
Variable room : nat -> nat.

(** A transport that fails within the limit: the line logged names the
    failure, the status is 500 and the stream writer is not looked at. *)
Lemma handle_read_error_line {T : Type} `{redisInterface T}
    (env : envInfo) (rc : T) (id : string) (r : Request) (s : World) (msg : string) :
  within_limit env r -> ending (ReqBodyReader r) = errors_New msg ->
  handleRequest room env rc id r s
  = Some (tt, {| w := WriteHeader StatusInternalServerError (w s);
                 logged := logged s ++
                   [Sprintln [if String.eqb msg "http: request body too large"
                              then "HTTP Request body too large "
                              else "Error writing to buffer: "; msg]];
                 appended := appended s |}).
Proof.
  intros Hin Hend. unfold handleRequest, mbind, M_bind, returns.
  rewrite ReadAll_MaxBytesReader, clamp_max. unfold limited_read_spec.
  destruct (Z.leb_spec (Z.of_nat (len (content (ReqBodyReader r)))) (Z.max 0 (RequestSizeLimit env)));
    [|unfold within_limit in Hin; lia].
  rewrite Hend. cbn [Error].
  by destruct (String.eqb msg "http: request body too large").
Qed.

Lemma readWhole_spec (env : envInfo) (r : Request) :
  readWhole env r = true <-> within_limit env r /\ ending (ReqBodyReader r) = io_EOF.
Proof.
  unfold readWhole, within_limit. rewrite andb_true_iff, Z.leb_le.
  destruct (ending (ReqBodyReader r)); split; intros [? ?]; done.
Qed.

Context {Cert : Type}.
Variable tbl : N -> bool.

(** The four ways a request ends. *)
Lemma handle_cases (env : envInfo) (rc : myRedis Cert) (id : string) (r : Request) (s : World) :
  exists (code : Z) (line : string) (asked : list XAddArgs),
    handleRequest (H := myRedis_write tbl) room env rc id r s
    = Some (tt, {| w := WriteHeader code (w s);
                   logged := logged s ++ [line];
                   appended := appended s ++ asked |})
    /\ (code = StatusAccepted /\ asked = [entry env r id]
           /\ readWhole env r = true /\ XAdd_Err (client rc) (entry env r id) = None
        \/ code = StatusInternalServerError /\ asked = [entry env r id]
           /\ readWhole env r = true /\ XAdd_Err (client rc) (entry env r id) <> None
        \/ code = StatusInternalServerError /\ asked = [] /\ readWhole env r = false).
Proof.
  destruct (readWhole env r) eqn:Hwhole.
  - apply readWhole_spec in Hwhole as [Hin Hend].
    destruct (XAdd_Err (client rc) (entry env r id)) as [e|] eqn:Hb.
    + eexists _, _, [_]. split; [by apply handle_broker_error|]. right. left. done.
    + eexists _, _, [_]. split; [by apply handle_accepted|]. left. done.
  - assert (Hnot : ~ (within_limit env r /\ ending (ReqBodyReader r) = io_EOF)).
    { rewrite <- readWhole_spec. by rewrite Hwhole. }
    destruct (Z.leb_spec (Z.of_nat (len (content (ReqBodyReader r)))) (Z.max 0 (RequestSizeLimit env)))
      as [Hin|Hout].
    + destruct (ending (ReqBodyReader r)) as [|msg] eqn:Hend; [by destruct Hnot|].
      eexists _, _, []. rewrite (right_id_L [] (++)).
      split; [by apply handle_read_error_line|]. right. right. done.
    + eexists _, _, []. rewrite (right_id_L [] (++)).
      split; [by apply handle_too_large|]. right. right. done.
Qed.

End Cases.
End HandlerCases.

Import HandlerCases.

(** X1 -- every request is answered, once.  Whatever the request, the
    configuration and the broker, the handler returns; it has called
    [WriteHeader] exactly once, with 202 or with 500, which is the status of
    the response; it has written nothing to the body of the response, and
    has logged exactly one line. *)
Theorem handler_answers_once (room : nat -> nat) (tbl : N -> bool) {Cert : Type}
    (env : envInfo) (rc : myRedis Cert) (id : string) (r : Request) (s : World) :
  wroteHeader (w s) = false ->
  exists s' line,
    handleRequest (H := myRedis_write tbl) room env rc id r s = Some (tt, s')
    /\ wroteHeader (w s') = true
    /\ (status (w s') = StatusAccepted \/ status (w s') = StatusInternalServerError)
    /\ headerCalls (w s') = headerCalls (w s) ++ [status (w s')]
    /\ written (w s') = written (w s)
    /\ logged s' = logged s ++ [line].
Proof.
  intros Hfresh.
  destruct (handle_cases room tbl env rc id r s) as (code & line & asked & Hrun & Hcase).
  eexists. exists line. split; [exact Hrun|].
  cbn [w logged]. unfold WriteHeader. rewrite Hfresh.
  cbn [wroteHeader status written headerCalls].
  split; [done|]. split; [|done].
  destruct Hcase as [(-> & _)|[(-> & _)|(-> & _)]]; auto.
Qed.

Lemma handler_answers_once_witness :
  exists s' line,
    handleRequest (H := myRedis_write Examples.noTable) Examples.room0 Examples.env5
      Examples.broker_down Examples.uuid (Examples.cut Examples.forwarded ["he"] "l") start
    = Some (tt, s')
    /\ wroteHeader (w s') = true
    /\ (status (w s') = StatusAccepted \/ status (w s') = StatusInternalServerError)
    /\ headerCalls (w s') = [status (w s')]
    /\ written (w s') = ""
    /\ logged s' = [line].
Proof.
  apply (handler_answers_once Examples.room0 Examples.noTable Examples.env5
           Examples.broker_down Examples.uuid (Examples.cut Examples.forwarded ["he"] "l") start).
  reflexivity.
Defined.

(** X2 -- when a request is accepted.  The status is 202 exactly when the
    body is within the limit, the transport ended normally and the broker
    took the append; and the line logged is the one that says so exactly
    then.  In every other case the status is 500. *)
Theorem accepted_exactly_when (room : nat -> nat) (tbl : N -> bool) {Cert : Type}
    (env : envInfo) (rc : myRedis Cert) (id : string) (r : Request) (s : World) :
  wroteHeader (w s) = false ->
  exists s',
    handleRequest (H := myRedis_write tbl) room env rc id r s = Some (tt, s')
    /\ (status (w s') = StatusAccepted
        <-> within_limit env r /\ ending (ReqBodyReader r) = io_EOF
            /\ XAdd_Err (client rc) (entry env r id) = None)
    /\ (logged s' = logged s ++ [Sprintln ["request accepted"]]
        <-> status (w s') = StatusAccepted)
    /\ (status (w s') <> StatusAccepted -> status (w s') = StatusInternalServerError).
Proof.
  intros Hfresh.
  assert (Hst : forall code, status (WriteHeader code (w s)) = code).
  { intros code. unfold WriteHeader. by rewrite Hfresh. }
  destruct (server.readWhole env r) eqn:Hwhole.
  - pose proof Hwhole as Hw. apply readWhole_spec in Hw as [Hin Hend].
    destruct (XAdd_Err (client rc) (entry env r id)) as [e|] eqn:Hb.
    + eexists. split; [by apply handle_broker_error|]. cbn [w logged]. rewrite Hst.
      split; [|split].
      * split; [discriminate|]. by intros (_ & _ & ?).
      * split; [|discriminate]. intros Heq. apply app_inv_head in Heq.
        injection Heq as Heq. unfold Sprintln in Heq. cbn [String.concat] in Heq.
        discriminate Heq.
      * done.
    + eexists. split; [by apply handle_accepted|]. cbn [w logged]. rewrite Hst.
      split; [|split]; [by split| by split| done].
  - assert (Hnot : ~ (within_limit env r /\ ending (ReqBodyReader r) = io_EOF)).
    { rewrite <- readWhole_spec. by rewrite Hwhole. }
    destruct (handle_cases room tbl env rc id r s) as (code & line & asked & Hrun & Hcase).
    destruct Hcase as [(_ & _ & Hw & _)|[(_ & _ & Hw & _)|(-> & -> & _)]];
      [congruence|congruence|].
    eexists. split; [exact Hrun|]. cbn [w logged]. rewrite Hst.
    split; [|split].
    + split; [discriminate|]. intros (? & ? & _). by destruct Hnot.
    + split; [|discriminate]. intros Heq. exfalso. apply app_inv_head in Heq.
      injection Heq as Heq.
      destruct (Z.leb_spec (Z.of_nat (len (content (ReqBodyReader r)))) (Z.max 0 (RequestSizeLimit env)))
        as [Hin|Hout].
      * destruct (ending (ReqBodyReader r)) as [|msg] eqn:Hend; [by destruct Hnot|].
        rewrite (handle_read_error_line room env rc id r s msg Hin Hend) in Hrun.
        injection Hrun as Hl. apply app_inv_head in Hl. injection Hl as Hl.
        rewrite Heq in Hl. unfold Sprintln in Hl. cbn [String.concat] in Hl.
        destruct (String.eqb msg "http: request body too large"); discriminate Hl.
      * rewrite (handle_too_large room env rc id r s Hout) in Hrun.
        injection Hrun as Hl. apply app_inv_head in Hl. injection Hl as Hl.
        rewrite Heq in Hl. discriminate Hl.
    + done.
Qed.

Lemma accepted_exactly_when_witness :
  exists s',
    handleRequest (H := myRedis_write Examples.noTable) Examples.room0 Examples.env5
      Examples.broker_up Examples.uuid (Examples.post Examples.forwarded ["he"] "llo") start
    = Some (tt, s')
    /\ (status (w s') = StatusAccepted
        <-> within_limit Examples.env5 (Examples.post Examples.forwarded ["he"] "llo")
            /\ io_EOF = io_EOF
            /\ XAdd_Err (client Examples.broker_up)
                 (entry Examples.env5 (Examples.post Examples.forwarded ["he"] "llo") Examples.uuid)
               = None)
    /\ (logged s' = [Sprintln ["request accepted"]] <-> status (w s') = StatusAccepted)
    /\ (status (w s') <> StatusAccepted -> status (w s') = StatusInternalServerError).
Proof.
  apply (accepted_exactly_when Examples.room0 Examples.noTable Examples.env5
           Examples.broker_up Examples.uuid (Examples.post Examples.forwarded ["he"] "llo") start).
  reflexivity.
Defined.

(** X3 -- when the broker is asked.  The handler asks the broker for one
    append, that of the entry of the request, exactly when the body was read
    whole; this also when the broker then refuses it and the response is
    500.  For a body over the limit or a failed transport it asks for
    none. *)
Theorem broker_asked_when_read_whole (room : nat -> nat) (tbl : N -> bool) {Cert : Type}
    (env : envInfo) (rc : myRedis Cert) (id : string) (r : Request) (s : World) :
  exists s',
    handleRequest (H := myRedis_write tbl) room env rc id r s = Some (tt, s')
    /\ appended s' = appended s ++
         (if server.readWhole env r then [entry env r id] else []).
Proof.
  destruct (handle_cases room tbl env rc id r s) as (code & line & asked & Hrun & Hcase).
  eexists. split; [exact Hrun|]. cbn [appended].
  destruct Hcase as [(_ & -> & -> & _)|[(_ & -> & -> & _)|(_ & -> & ->)]]; done.
Qed.

(** X4 -- the stream writer is not consulted for a body that was not read
    whole.  For a body over the limit or a failed transport the handler
    behaves the same whatever the stream writer and the identifier are: they
    have no part in the response, the log or the appends. *)
Theorem refusal_ignores_writer (room : nat -> nat)
    {T1 : Type} {W1 : redisInterface T1} {T2 : Type} {W2 : redisInterface T2}
    (env : envInfo) (rc1 : T1) (rc2 : T2) (id1 id2 : string) (r : Request) (s : World) :
  server.readWhole env r = false ->
  handleRequest room env rc1 id1 r s = handleRequest room env rc2 id2 r s.
Proof.
  intros Hwhole.
  assert (Hnot : ~ (within_limit env r /\ ending (ReqBodyReader r) = io_EOF)).
  { rewrite <- readWhole_spec. by rewrite Hwhole. }
  destruct (Z.leb_spec (Z.of_nat (len (content (ReqBodyReader r)))) (Z.max 0 (RequestSizeLimit env)))
    as [Hin|Hout].
  - destruct (ending (ReqBodyReader r)) as [|msg] eqn:Hend; [by destruct Hnot|].
    by rewrite !(handle_read_error_line room env _ _ r s msg Hin Hend).
  - by rewrite !(handle_too_large room env _ _ r s Hout).
Qed.

Lemma refusal_ignores_writer_witness :
  handleRequest (H := myRedis_write Examples.noTable) Examples.room0 Examples.env5
    Examples.broker_up Examples.uuid (Examples.post Examples.forwarded ["hello "] "world") start
  = handleRequest (H := myRedis_write Examples.noTable) Examples.room0 Examples.env5
      Examples.broker_down "" (Examples.post Examples.forwarded ["hello "] "world") start.
Proof.
  apply (refusal_ignores_writer (W1 := myRedis_write Examples.noTable)
           (W2 := myRedis_write Examples.noTable) Examples.room0 Examples.env5 Examples.broker_up
           Examples.broker_down Examples.uuid "" (Examples.post Examples.forwarded ["hello "] "world")
           start).
  reflexivity.
Defined.

(** X5 -- how the body arrives does not matter.  Two requests with the same
    method, target and headers whose bodies hold the same bytes and end the
    same way are handled alike, however the transport cuts the bodies into
    pieces and however the buffer of [ReadAll] grows. *)
Theorem chunking_irrelevant (room1 room2 : nat -> nat) {T : Type} {W : redisInterface T}
    (env : envInfo) (rc : T) (id : string) (r1 r2 : Request) (s : World) :
  Method r1 = Method r2 -> URL r1 = URL r2 -> Header r1 = Header r2 ->
  content (ReqBodyReader r1) = content (ReqBodyReader r2) ->
  ending (ReqBodyReader r1) = ending (ReqBodyReader r2) ->
  handleRequest room1 env rc id r1 s = handleRequest room2 env rc id r2 s.
Proof.
  intros Hm Hu Hh Hc He. unfold handleRequest, mbind, M_bind, returns.
  rewrite !ReadAll_MaxBytesReader. unfold limited_read_spec, reqData.
  by rewrite Hm, Hu, Hh, Hc, He.
Qed.

Lemma chunking_irrelevant_witness :
  handleRequest (H := myRedis_write Examples.noTable) Examples.room0 Examples.env5
    Examples.broker_up Examples.uuid (Examples.post Examples.forwarded ["h"; "el"] "lo") start
  = handleRequest (H := myRedis_write Examples.noTable) Examples.room1 Examples.env5
      Examples.broker_up Examples.uuid (Examples.post Examples.forwarded [] "hello") start.
Proof.
  apply (chunking_irrelevant (W := myRedis_write Examples.noTable) Examples.room0 Examples.room1 Examples.env5 Examples.broker_up
           Examples.uuid (Examples.post Examples.forwarded ["h"; "el"] "lo")
           (Examples.post Examples.forwarded [] "hello") start); reflexivity.
Defined.

(** X6 -- what a refusal reports.  A body over the limit is answered 500
    with the line that names the limit; a transport that fails within the
    limit with another message is answered 500 with the line that carries
    that message.  In both the broker is asked for nothing and the lines
    logged before are kept. *)
Theorem refusal_reported (room : nat -> nat) {T : Type} {W : redisInterface T}
    (env : envInfo) (rc : T) (id : string) (r : Request) (s : World) :
  wroteHeader (w s) = false ->
  (~ within_limit env r ->
   exists s',
     handleRequest room env rc id r s = Some (tt, s')
     /\ status (w s') = StatusInternalServerError
     /\ logged s' = logged s
          ++ ["HTTP Request body too large  http: request body too large" +:+ str lf]
     /\ appended s' = appended s)
  /\ (forall msg,
        within_limit env r -> ending (ReqBodyReader r) = errors_New msg ->
        msg <> "http: request body too large" ->
        exists s',
          handleRequest room env rc id r s = Some (tt, s')
          /\ status (w s') = StatusInternalServerError
          /\ logged s' = logged s ++ ["Error writing to buffer:  " +:+ msg +:+ str lf]
          /\ appended s' = appended s).
Proof.
  intros Hfresh.
  assert (Hst : forall code, status (WriteHeader code (w s)) = code).
  { intros code. unfold WriteHeader. by rewrite Hfresh. }
  split.
  - intros Hout. eexists. split; [apply handle_too_large; unfold within_limit in Hout; lia|].
    cbn [w logged appended]. by rewrite Hst.
  - intros msg Hin Hend Hmsg. eexists. split; [by apply handle_read_error_line|].
    cbn [w logged appended]. rewrite Hst.
    apply String.eqb_neq in Hmsg. rewrite Hmsg.
    split; [done|]. split; [|done]. unfold Sprintln. cbn [String.concat].
    by rewrite !app_assoc.
Qed.

Lemma refusal_reported_witness :
  (exists s',
     handleRequest (H := myRedis_write Examples.noTable) Examples.room0 Examples.env5
       Examples.broker_up Examples.uuid (Examples.post Examples.forwarded ["hello "] "world") start
     = Some (tt, s')
     /\ status (w s') = StatusInternalServerError
     /\ logged s' = ["HTTP Request body too large  http: request body too large" +:+ str lf]
     /\ appended s' = [])
  /\ (exists s',
        handleRequest (H := myRedis_write Examples.noTable) Examples.room0 Examples.env5
          Examples.broker_up Examples.uuid (Examples.cut Examples.forwarded ["he"] "l") start
        = Some (tt, s')
        /\ status (w s') = StatusInternalServerError
        /\ logged s' = ["Error writing to buffer:  unexpected EOF" +:+ str lf]
        /\ appended s' = []).
Proof.
  split.
  - destruct (refusal_reported (W := myRedis_write Examples.noTable) Examples.room0
                Examples.env5 Examples.broker_up Examples.uuid
                (Examples.post Examples.forwarded ["hello "] "world") start eq_refl)
      as [Hlarge _].
    apply Hlarge. vm_compute. intros Hle. apply Hle. reflexivity.
  - destruct (refusal_reported (W := myRedis_write Examples.noTable) Examples.room0
                Examples.env5 Examples.broker_up Examples.uuid
                (Examples.cut Examples.forwarded ["he"] "l") start eq_refl) as [_ Hcut].
    apply (Hcut "unexpected EOF");
      [vm_compute; discriminate | reflexivity | discriminate].
Defined.

(** X7 -- requests handled one after the other.  When the handler is called
    for a list of requests in turn, each with a response of its own, every
    call returns; the appends asked of the broker are, in the order of the
    requests, the entries of those whose body was read whole, after the
    appends asked before; and one line is logged for each request.  No
    request changes what a later one appends. *)
Theorem serve_appends_in_order (room : nat -> nat) (tbl : N -> bool) {Cert : Type}
    (env : envInfo) (rc : myRedis Cert) (reqs : list (string * Request)) (s : World) :
  exists s',
    server.serve (H := myRedis_write tbl) room env rc reqs s = Some (tt, s')
    /\ appended s' = appended s
         ++ List.map (fun p => entry env p.2 p.1)
              (List.filter (fun p => server.readWhole env p.2) reqs)
    /\ length (logged s') = (length (logged s) + length reqs)%nat.
Proof.
  revert s. induction reqs as [|[id r] reqs IH]; intros s.
  - exists s. cbn. by rewrite (right_id_L [] (++)), Nat.add_0_r.
  - destruct (handle_cases room tbl env rc id r (server.fresh s))
      as (code & line & asked & Hrun & Hcase).
    cbn [server.serve]. rewrite Hrun.
    destruct (IH {| w := WriteHeader code (w (server.fresh s));
                    logged := logged (server.fresh s) ++ [line];
                    appended := appended (server.fresh s) ++ asked |})
      as (s' & Hserve & Happ & Hlog).
    exists s'. split; [exact Hserve|].
    cbn [appended logged server.fresh] in Happ, Hlog.
    rewrite Happ, Hlog. cbn [List.filter snd fst length]. split.
    + rewrite <- List.app_assoc. f_equal.
      destruct Hcase as [(_ & -> & -> & _)|[(_ & -> & -> & _)|(_ & -> & ->)]]; done.
    + rewrite length_app. cbn [length]. lia.
Qed.

(** X8 -- the url of the envelope, in general.  Whatever the first value
    under Async-Original-Host is, the url of the envelope is the scheme
    http, that value taken as it is, and the target of the request; further
    values under the header and the other headers have no part in it. *)
Theorem url_from_first_host_value (r : Request) (id b : string)
    (m : gmap string (slice string)) (v : string) (more : list string) :
  Header r = Some m ->
  m !! "Async-Original-Host" = Some (Some (v :: more)) ->
  ReqURL (reqData r id b) = "http://" +:+ v +:+ URL r
  /\ forall (r' : Request) (m' : gmap string (slice string)) (more' : list string),
       Header r' = Some m' ->
       m' !! "Async-Original-Host" = Some (Some (v :: more')) ->
       URL r' = URL r ->
       ReqURL (reqData r' id b) = ReqURL (reqData r id b).
Proof.
  intros Hh Hhost.
  assert (Hurl : ReqURL (reqData r id b) = "http://" +:+ v +:+ URL r).
  { unfold reqData. cbn [ReqURL]. by rewrite Hh, Get_originalHost, Hhost. }
  split; [exact Hurl|]. intros r' m' more' Hh' Hhost' Hu.
  rewrite Hurl. unfold reqData. cbn [ReqURL]. by rewrite Hh', Get_originalHost, Hhost', Hu.
Qed.

Lemma url_from_first_host_value_witness :
  ReqURL (reqData (Examples.post Examples.forwarded [] "hello") Examples.uuid "hello")
  = "http://example.com/v1/foo?x=1".
Proof.
  exact (proj1 (url_from_first_host_value (Examples.post Examples.forwarded [] "hello")
                  Examples.uuid "hello" _ "example.com" [] eq_refl eq_refl)).
Defined.

(** X9 -- when the process comes to serve.  [main] goes on to serve exactly
    when the configuration was processed without error and either no
    certificate was found or the broker address is a URL that [ParseURL]
    accepts.  It then serves with the configuration as processed and with a
    channel that is secured exactly when a certificate was found.  The lines
    logged before are kept; a configuration that could not be processed is
    fatal before any certificate is looked for, with the error as the only
    line. *)
Theorem startup_outcome {Cert : Type} (pem : string -> list Cert)
    (setupConn : string -> Options Cert + error)
    (dial : Options Cert -> XAddArgs -> option error)
    (cfg : envInfo) (err : option error) (l : list string) :
  exists lines,
    (main pem setupConn dial (cfg, err) l).1 = l ++ lines
    /\ ((exists srv, (main pem setupConn dial (cfg, err) l).2 = Some srv)
        <-> err = None
            /\ (certFound pem cfg = false
                \/ exists o, ParseURL setupConn (RedisAddress cfg) = inl o))
    /\ (forall srv, (main pem setupConn dial (cfg, err) l).2 = Some srv ->
          env srv = cfg /\ secured (client (rc srv)) = certFound pem cfg)
    /\ (forall e, err = Some e -> lines = [Sprintln [Error e]])
    /\ (err = None ->
        exists rest,
          lines = Sprintln [if certFound pem cfg then "found a cert" else "didnt find a cert"]
                  :: rest).
Proof.
  destruct err as [e|].
  - exists [Sprintln [Error e]]. cbn. split; [done|]. split; [|split; [|split]].
    + split; [by intros [? ?]|by intros [? _]].
    + done.
    + by intros ? [= <-].
    + done.
  - unfold main, mbind, P_bind.
    destruct (certFound pem cfg) eqn:Hfound.
    + destruct (ParseURL setupConn (RedisAddress cfg)) as [o|e] eqn:Hurl.
      * rewrite (setUp_cert_address pem setupConn dial cfg l o Hfound Hurl).
        eexists. cbn [fst snd mret P_ret]. split; [reflexivity|].
        split; [|split; [|split]].
        -- split; [|by eexists]. intros _. split; [done|]. right. by exists o.
        -- by intros srv [= <-].
        -- done.
        -- intros _. by eexists.
      * rewrite (setUp_cert_bad_address pem setupConn dial cfg l e Hfound Hurl).
        eexists. cbn [fst snd]. split; [reflexivity|].
        split; [|split; [|split]].
        -- split; [by intros [? ?]|]. intros [_ [?|[o ?]]]; done.
        -- done.
        -- done.
        -- intros _. by eexists.
    + rewrite (setUp_no_cert pem setupConn dial cfg l Hfound).
      eexists. cbn [fst snd mret P_ret]. split; [reflexivity|].
      split; [|split; [|split]].
      * split; [|by eexists]. intros _. split; [done|]. by left.
      * by intros srv [= <-].
      * done.
      * intros _. by eexists.
Qed.

(** X10 -- the text of the error of [write].  When the broker refuses the
    append and the identifier is made of plain characters, as the text of a
    UUID is, [write] returns the error whose message is: failed to publish,
    the identifier between double quotes, a colon, and the message of the
    broker.  It has asked the broker once and has touched neither the
    response nor the log. *)
Theorem publish_error_text (tbl : N -> bool) {Cert : Type} (mr : myRedis Cert)
    (cfg : envInfo) (reqJSON id : string) (s : World) (e : error) :
  all strconv.plain id = true ->
  XAdd_Err (client mr) {| Stream := StreamName cfg; Values := {[ "data" := reqJSON ]} |} = Some e ->
  myRedis_write tbl mr cfg reqJSON id s
  = Some (Some (errors_New ("failed to publish " +:+ str dq +:+ id +:+ str dq
                            +:+ ": " +:+ Error e)),
          {| w := w s; logged := logged s;
             appended := appended s
               ++ [{| Stream := StreamName cfg; Values := {[ "data" := reqJSON ]} |}] |}).
Proof.
  intros Hplain Hb. rewrite write_run, Hb. unfold Errorf_publish.
  rewrite (Quote_plain tbl id Hplain). do 3 f_equal.
  by rewrite !app_cons, !app_assoc.
Qed.

Lemma publish_error_text_witness :
  myRedis_write Examples.noTable Examples.broker_down Examples.env5 "{}" Examples.uuid start
  = Some (Some (errors_New ("failed to publish " +:+ str dq +:+ Examples.uuid +:+ str dq
                            +:+ ": " +:+ "dial tcp: connection refused")),
          {| w := newResponse; logged := [];
             appended := [{| Stream := "requests"; Values := {[ "data" := "{}" ]} |}] |}).
Proof.
  apply (publish_error_text Examples.noTable Examples.broker_down Examples.env5 "{}"
           Examples.uuid start (errors_New "dial tcp: connection refused"));
    reflexivity.
Defined.

(** X11 -- different requests give different entries.  When the entries of
    two requests are equal and the texts of both are well-formed UTF-8, the
    two go to the same stream and the identifier, the url, the body, the
    headers and the method are the same: nothing of a request is lost in
    its entry. *)
Theorem entry_determines_request (env1 env2 : envInfo) (r1 r2 : Request) (id1 id2 : string) :
  validEnvelope (reqData r1 id1 (content (ReqBodyReader r1))) = true ->
  validEnvelope (reqData r2 id2 (content (ReqBodyReader r2))) = true ->
  entry env1 r1 id1 = entry env2 r2 id2 ->
  StreamName env1 = StreamName env2
  /\ id1 = id2
  /\ content (ReqBodyReader r1) = content (ReqBodyReader r2)
  /\ Header r1 = Header r2
  /\ Method r1 = Method r2
  /\ "http://" +:+ Get (Header r1) "Async-Original-Host" +:+ URL r1
     = "http://" +:+ Get (Header r2) "Async-Original-Host" +:+ URL r2.
Proof.
  intros Hv1 Hv2 Heq.
  pose proof (f_equal Stream Heq) as Hs. cbn [Stream entry] in Hs.
  pose proof (f_equal (fun a => Values a !! "data") Heq) as Hd.
  cbn [Values entry] in Hd. rewrite !lookup_singleton_eq in Hd.
  apply (inj Some) in Hd.
  pose proof (Unmarshal_encodeStruct _ Hv1) as H1.
  pose proof (Unmarshal_encodeStruct _ Hv2) as H2.
  change (encodeStruct ?v) with (Marshal v).1 in H1, H2.
  rewrite Hd, H2 in H1. apply (inj Some) in H1. symmetry in H1.
  clear H2. rename H1 into H2.
  split; [exact Hs|].
  split; [exact (f_equal ID H2)|].
  split; [exact (f_equal ReqBody H2)|].
  split; [exact (f_equal ReqHeader H2)|].
  split; [exact (f_equal ReqMethod H2)|].
  exact (f_equal ReqURL H2).
Qed.

Lemma entry_determines_request_witness :
  StreamName Examples.env5 = StreamName Examples.env0
  /\ Examples.uuid = Examples.uuid
  /\ "hello" = "hello"
  /\ Examples.forwarded = Examples.forwarded
  /\ "POST" = "POST"
  /\ "http://" +:+ "example.com" +:+ "/v1/foo?x=1" = "http://" +:+ "example.com" +:+ "/v1/foo?x=1".
Proof.
  apply (entry_determines_request Examples.env5 Examples.env0
           (Examples.post Examples.forwarded ["he"] "llo")
           (Examples.post Examples.forwarded [] "hello") Examples.uuid Examples.uuid).
  - vm_compute. reflexivity.
  - vm_compute. reflexivity.
  - reflexivity.
Defined.

(** X12 -- reading under the limit.  [ReadAll] on the body under the limit
    always returns.  The bytes it returns are the first bytes of the body
    and never more than the limit; there is no error exactly when the body
    is within the limit and the transport ended normally, and then the bytes
    are the whole body; a body over the limit gives the limit's own error,
    whatever the transport would have reported at its end. *)
Theorem read_under_limit (room : nat -> nat) (r : Body) (n : Z) :
  exists b err,
    ReadAll room (MaxBytesReader r n) = Some (b, err)
    /\ (Z.of_nat (len b) <= Z.max 0 n)%Z
    /\ (exists rest, content r = b +:+ rest)
    /\ (err = None <-> (Z.of_nat (len (content r)) <= Z.max 0 n)%Z /\ ending r = io_EOF)
    /\ (err = None -> b = content r)
    /\ ((Z.max 0 n < Z.of_nat (len (content r)))%Z -> err = Some errTooLarge).
Proof.
  rewrite ReadAll_MaxBytesReader, clamp_max. unfold limited_read_spec.
  destruct (Z.leb_spec (Z.of_nat (len (content r))) (Z.max 0 n)) as [Hin|Hout].
  - eexists. eexists. split; [reflexivity|]. split; [exact Hin|].
    split; [exists ""; by rewrite app_nil_r|].
    split; [|split; [done|lia]].
    destruct (ending r); split; try done. by intros [_ ?].
  - eexists. eexists. split; [reflexivity|]. split.
    { rewrite len_take. lia. }
    split; [exists (drop (Z.to_nat (Z.max 0 n)) (content r)); by rewrite take_drop|].
    split; [|split; [done|done]].
    split; [done|]. intros [? _]. lia.
Qed.

(** X13 -- a secured start-up needs a Redis URL.  When a certificate was
    found and the process comes to serve, the configured broker address
    begins with the scheme redis, rediss or unix, in letters of either case,
    followed by a colon; with any other address and a certificate the
    start-up is fatal. *)
Theorem secured_startup_needs_scheme {Cert : Type} (pem : string -> list Cert)
    (setupConn : string -> Options Cert + error)
    (dial : Options Cert -> XAddArgs -> option error)
    (cfg : envInfo) (l : list string) (srv : server) :
  certFound pem cfg = true ->
  (main pem setupConn dial (cfg, None) l).2 = Some srv ->
  exists sch rest,
    RedisAddress cfg = sch +:+ ":" +:+ rest
    /\ (ToLower sch = "redis" \/ ToLower sch = "rediss" \/ ToLower sch = "unix").
Proof.
  intros Hfound Hrun. unfold main, mbind, P_bind in Hrun.
  destruct (ParseURL setupConn (RedisAddress cfg)) as [o|e] eqn:Hurl.
  - by apply (SchemeFacts.ParseURL_scheme setupConn _ o).
  - by rewrite (setUp_cert_bad_address pem setupConn dial cfg l e Hfound Hurl) in Hrun.
Qed.

Lemma secured_startup_needs_scheme_witness :
  exists sch rest,
    "Redis://localhost:6379" = sch +:+ ":" +:+ rest
    /\ (ToLower sch = "redis" \/ ToLower sch = "rediss" \/ ToLower sch = "unix").
Proof.
  apply (secured_startup_needs_scheme Examples.oneCertificate Examples.hostAfterScheme
           Examples.quietBroker (Examples.envTLS "Redis://localhost:6379") []
           {| env := Examples.envTLS "Redis://localhost:6379";
              rc := {| client := NewClient Examples.quietBroker
                         {| Network := "tcp"; Addr := "localhost:6379"; Username := "";
                            Password := ""; DB := 0;
                            TLSConfig := Some {| RootCAs := Some [tt]; ServerName := "" |} |} |} |});
    reflexivity.
Defined.
